(** * Azure DevOps Pipeline Advisor: analysis engine and React front end

    The development has two parts.

    - [Analyzer]: the pipeline-analysis engine (YAML tree, metric
      extraction, recommendation rules).  The engine lives in the Flask
      back end, whose sources are not part of the tree under study; its
      definitions are modelled from the specification and marked as such.
    - [Frontend]: the logic of the React components
      [PipelineAnalyzer.js], [PipelineList.js] and [App.js], embedded from
      the JavaScript sources: strings are sequences of UTF-16 code units,
      the component state is a record, event handlers are state
      transformers that also log the requests they send, and a session
      with a component is a sequence of events. *)

From Stdlib Require Import List String Ascii Bool Arith NArith Lia.
From Stdlib Require Import Numbers.DecimalString Numbers.DecimalNat.
From Stdlib Require Import ZArith Permutation Sorted.
Import ListNotations.

Set Implicit Arguments.
Set Warnings "-register-all".

(* ===================================================================== *)
(** * Part I: the analysis engine *)
(* ===================================================================== *)

Module Analyzer.

Local Open Scope string_scope.

(** ** Parsed documents *)

(** Modelled from the spec: the PipelineDocument produced by the YAML
    loader (the loader and the engine are in the back end).  The spec's
    design notes fix the shape: a generic value that is a mapping, a
    sequence, a scalar or null.  Mappings keep their entries in document
    order. *)
Inductive value : Type :=
| Null
| Scalar (s : string)
| Seq (items : list value)
| Map (entries : list (string * value)).

Fixpoint assoc (A : Type) (k : string) (kvs : list (string * A)) : option A :=
  match kvs with
  | [] => None
  | (k', v) :: rest => if String.eqb k k' then Some v else assoc k rest
  end.

(** Total accessors: every probe into the tree yields a safe default
    instead of a type error. *)
Definition get (k : string) (v : value) : option value :=
  match v with
  | Map kvs => assoc k kvs
  | _ => None
  end.

Definition has_key (k : string) (v : value) : bool :=
  match get k v with Some _ => true | None => false end.

Definition get_sequence (k : string) (v : value) : option (list value) :=
  match get k v with
  | Some (Seq l) => Some l
  | _ => None
  end.

Definition get_sequence_or_empty (k : string) (v : value) : list value :=
  match get_sequence k v with Some l => l | None => [] end.

Definition get_scalar (k : string) (v : value) : option string :=
  match get k v with
  | Some (Scalar s) => Some s
  | _ => None
  end.

(** ** Ordered mappings *)

(** Modelled from the spec: [jobs_per_stage] is an "ordered mapping from
    stage identifier to job count" that "has exactly one entry per stage
    found", in document order.  It is kept as the sequence of its
    entries, one (key, count) pair per stage. *)
Definition omap (A : Type) : Type := list (string * A).

Definition om_keys (A : Type) (m : omap A) : list string := map fst m.

(** Keyed assignment [m[k] = v] on an insertion-ordered mapping: a bound
    key keeps its place and takes the new value, a new key goes to the
    end. *)
Fixpoint om_set (A : Type) (k : string) (v : A) (m : omap A) : omap A :=
  match m with
  | [] => [(k, v)]
  | (k', v') :: rest =>
      if String.eqb k k' then (k, v) :: rest else (k', v') :: om_set k v rest
  end.

(** The mapping obtained by assigning the entries one after the other. *)
Definition om_of_entries (A : Type) (entries : list (string * A)) : omap A :=
  fold_left (fun m e => om_set (fst e) (snd e) m) entries [].

(** ** Stages, jobs, steps *)

(** Modelled from the spec: a stage found by the extractor.  The
    synthetic implicit stage carries no declared name. *)
Record stage : Type := mkStage
  { stage_name : option string;
    stage_jobs : list value }.

(** Modelled from the spec: "Has an optional displayName/name". *)
Definition declared_name (v : value) : option string :=
  match get_scalar "displayName" v with
  | Some s => Some s
  | None => get_scalar "name" v
  end.

(** Whether a node has any job/step structure of its own. *)
Definition has_job_structure (v : value) : bool :=
  match get_sequence "jobs" v, get_sequence "steps" v with
  | None, None => false
  | _, _ => true
  end.

(** Modelled from the spec (4.2, step 2): the [jobs] sequence, or one
    implicit job when the node has [steps] directly. *)
Definition locate_jobs (v : value) : list value :=
  match get_sequence "jobs" v with
  | Some js => js
  | None =>
      match get_sequence "steps" v with
      | Some _ => [v]
      | None => []
      end
  end.

(** Modelled from the spec (4.2, steps 1 and 3): the entries of [stages]
    when that key holds a sequence; otherwise the whole document as one
    implicit stage, provided it has job/step structure; a document with
    neither has no stage. *)
Definition locate_stages (doc : value) : list stage :=
  match get_sequence "stages" doc with
  | Some ss => map (fun s => mkStage (declared_name s) (locate_jobs s)) ss
  | None =>
      if has_job_structure doc then [mkStage None (locate_jobs doc)] else []
  end.

Definition nat_to_string (n : nat) : string :=
  NilEmpty.string_of_uint (Nat.to_uint n).

(** The number that a decimal numeral denotes. *)
Definition string_to_nat (s : string) : option nat :=
  option_map Nat.of_uint (NilEmpty.uint_of_string s).

(** Modelled from the spec (4.2, step 4): the declared name if present,
    else the positional placeholder. *)
Definition stage_key (i : nat) (st : stage) : string :=
  match stage_name st with
  | Some n => n
  | None => "stage_" ++ nat_to_string i
  end.

(** Stage keys in document order, numbering from [i]. *)
Fixpoint stage_keys (i : nat) (sts : list stage) : list string :=
  match sts with
  | [] => []
  | st :: rest => stage_key i st :: stage_keys (S i) rest
  end.

(** Modelled from the spec (3 and 4.2, step 4): the loop over the stages
    found, numbering them from [i]; each stage adds its own entry, after
    the entries [m] of the stages before it. *)
Fixpoint count_jobs (i : nat) (sts : list stage) (m : omap nat) : omap nat :=
  match sts with
  | [] => m
  | st :: rest =>
      count_jobs (S i) rest
                 (m ++ [(stage_key i st, List.length (stage_jobs st))])%list
  end.

Definition job_steps (job : value) : list value :=
  get_sequence_or_empty "steps" job.

Definition all_steps (sts : list stage) : list value :=
  flat_map (fun st => flat_map job_steps (stage_jobs st)) sts.

(** ** Configuration *)

(** Modelled from the spec: thresholds, the set of caching task names and
    the wording of the warnings are not fixed by the spec ("make them
    configuration constants"); they are fields of a configuration. *)
Record config : Type := mkConfig
  { max_jobs_per_stage : nat;
    caching_step_threshold : nat;
    is_cache_task : string -> bool;
    msg_no_stages : string;
    msg_split_stage : string -> string;
    msg_add_caching : string;
    msg_no_trigger : string }.

(** The one message whose text the spec fixes. *)
Definition msg_looks_good : string := "Pipeline configuration looks good".

(** ** Metrics *)

Record metrics : Type := mkMetrics
  { stages_count : nat;
    jobs_per_stage : omap nat;
    total_steps : nat;
    has_caching : bool;
    has_trigger : bool;
    has_condition : bool }.

(** ** Dynamically typed probes *)

(** Modelled from the spec (9 and 7): "the original structure uses
    dynamic, loosely-typed tree traversal", in which a probe into a value
    of the wrong shape is a runtime type error.  These are the probes:
    each one raises on the values it does not apply to. *)
Inductive raised : Type :=
| TypeError
| KeyError.

Definition result (A : Type) : Type := (raised + A)%type.

Definition ret (A : Type) (a : A) : result A := inr a.

Definition bind (A B : Type) (c : result A) (k : A -> result B) : result B :=
  match c with
  | inl e => inl e
  | inr a => k a
  end.

Notation "x <- c ;; k" := (bind c (fun x => k))
  (at level 61, c at next level, right associativity).

(** [v[k]]: a type error unless [v] is a mapping, a key error when the
    key is missing. *)
Definition subscript (v : value) (k : string) : result value :=
  match v with
  | Map kvs =>
      match assoc k kvs with
      | Some x => inr x
      | None => inl KeyError
      end
  | _ => inl TypeError
  end.

(** [k in v]: a type error unless [v] is a mapping. *)
Definition contains (v : value) (k : string) : result bool :=
  match v with
  | Map kvs => inr (match assoc k kvs with Some _ => true | None => false end)
  | _ => inl TypeError
  end.

(** The entries of [v]: a type error unless [v] is a sequence. *)
Definition elements (v : value) : result (list value) :=
  match v with
  | Seq l => inr l
  | _ => inl TypeError
  end.

(** [v] as a string: a type error unless [v] is a scalar. *)
Definition text (v : value) : result string :=
  match v with
  | Scalar s => inr s
  | _ => inl TypeError
  end.

(** The tests on the shape of a value; they apply to every value. *)
Definition is_mapping (v : value) : bool :=
  match v with Map _ => true | _ => false end.
Definition is_sequence (v : value) : bool :=
  match v with Seq _ => true | _ => false end.
Definition is_scalar (v : value) : bool :=
  match v with Scalar _ => true | _ => false end.

(** A loop whose body may raise; it stops at the first error. *)
Fixpoint for_each (A B : Type) (f : A -> result B) (l : list A) : result (list B) :=
  match l with
  | [] => ret []
  | a :: rest =>
      b <- f a ;;
      bs <- for_each f rest ;;
      ret (b :: bs)
  end.

(** Modelled from the spec (4.2, step 1): the test "key present and is a
    sequence" (or a scalar), made before the value is used. *)
Definition holds (test : value -> bool) (v : value) (k : string) : result bool :=
  if is_mapping v then
    present <- contains v k ;;
    if present then x <- subscript v k ;; ret (test x) else ret false
  else ret false.

Definition dyn_sequence (v : value) (k : string) : result (option (list value)) :=
  ok <- holds is_sequence v k ;;
  if ok then x <- subscript v k ;; l <- elements x ;; ret (Some l)
  else ret None.

Definition dyn_scalar (v : value) (k : string) : result (option string) :=
  ok <- holds is_scalar v k ;;
  if ok then x <- subscript v k ;; s <- text x ;; ret (Some s)
  else ret None.

Definition dyn_has_key (v : value) (k : string) : result bool :=
  if is_mapping v then contains v k else ret false.

Definition dyn_declared_name (v : value) : result (option string) :=
  n <- dyn_scalar v "displayName" ;;
  match n with
  | Some s => ret (Some s)
  | None => dyn_scalar v "name"
  end.

(** Modelled from the spec (4.2, step 2). *)
Definition dyn_locate_jobs (v : value) : result (list value) :=
  js <- dyn_sequence v "jobs" ;;
  match js with
  | Some l => ret l
  | None =>
      ss <- dyn_sequence v "steps" ;;
      match ss with
      | Some _ => ret [v]
      | None => ret []
      end
  end.

(** Modelled from the spec (4.2, steps 1 and 3). *)
Definition dyn_locate_stages (doc : value) : result (list stage) :=
  ss <- dyn_sequence doc "stages" ;;
  match ss with
  | Some l =>
      for_each (fun s =>
                  n <- dyn_declared_name s ;;
                  js <- dyn_locate_jobs s ;;
                  ret (mkStage n js)) l
  | None =>
      js <- dyn_sequence doc "jobs" ;;
      st <- dyn_sequence doc "steps" ;;
      match js, st with
      | None, None => ret []
      | _, _ => jobs <- dyn_locate_jobs doc ;; ret [mkStage None jobs]
      end
  end.

Definition dyn_job_steps (job : value) : result (list value) :=
  ss <- dyn_sequence job "steps" ;;
  ret (match ss with Some l => l | None => [] end).

Definition dyn_all_steps (sts : list stage) : result (list value) :=
  per_stage <- for_each (fun st =>
                           per_job <- for_each dyn_job_steps (stage_jobs st) ;;
                           ret (List.concat per_job)) sts ;;
  ret (List.concat per_stage).

Section Engine.

Variable cfg : config.

Definition step_uses_cache (step : value) : bool :=
  match get_scalar "task" step with
  | Some t => is_cache_task cfg t
  | None => false
  end.

(** Modelled from the spec (4.2): [extract(doc) -> Metrics]. *)
Definition extract (doc : value) : metrics :=
  let sts := locate_stages doc in
  let steps := all_steps sts in
  {| stages_count := List.length sts;
     jobs_per_stage := count_jobs 0 sts [];
     total_steps := List.length steps;
     has_caching := existsb step_uses_cache steps;
     has_trigger := has_key "trigger" doc;
     has_condition := existsb (has_key "condition") steps |}.

(** ** Rules *)

(** Modelled from the spec (4.3): a rule inspects the document and the
    metrics and optionally yields one message. *)
Definition rule : Type := value -> metrics -> option string.

Definition rule_no_stages : rule := fun _ m =>
  if Nat.eqb (stages_count m) 0 then Some (msg_no_stages cfg) else None.

Definition rule_split_stage : rule := fun _ m =>
  match find (fun e => Nat.ltb (max_jobs_per_stage cfg) (snd e)) (jobs_per_stage m) with
  | Some (k, _) => Some (msg_split_stage cfg k)
  | None => None
  end.

Definition rule_add_caching : rule := fun _ m =>
  if negb (has_caching m) && Nat.ltb (caching_step_threshold cfg) (total_steps m)
  then Some (msg_add_caching cfg) else None.

Definition rule_no_trigger : rule := fun doc _ =>
  if has_key "trigger" doc then None else Some (msg_no_trigger cfg).

(** The battery, in its fixed order. *)
Definition rules : list rule :=
  [rule_no_stages; rule_split_stage; rule_add_caching; rule_no_trigger].

Definition fire (doc : value) (m : metrics) (r : rule) : list string :=
  match r doc m with
  | Some msg => [msg]
  | None => []
  end.

Definition warnings (doc : value) (m : metrics) : list string :=
  flat_map (fire doc m) rules.

(** Modelled from the spec (4.3): [evaluate(doc, metrics)]. *)
Definition evaluate (doc : value) (m : metrics) : list string :=
  match warnings doc m with
  | [] => [msg_looks_good]
  | ws => ws
  end.

(** ** Assembling the response *)

Record analysis_result : Type := mkResult
  { analysis : metrics;
    recommendations : list string }.

Definition assemble (m : metrics) (recs : list string) : analysis_result :=
  mkResult m recs.

(** Modelled from the spec (7): the two error kinds. *)
Inductive error : Type :=
| ParseError (message : string)
| InputTooLarge.

(** The YAML loader is a third-party library; it is a parameter.  It
    either fails with a message or yields a document. *)
Variable parse : string -> string + value.

(** Modelled from the spec (2): [analyze(text) -> {metrics, recommendations}]. *)
Definition analyze (text : string) : error + analysis_result :=
  match parse text with
  | inl message => inl (ParseError message)
  | inr doc =>
      let m := extract doc in
      inr (assemble m (evaluate doc m))
  end.

(** ** The engine over the dynamically typed probes *)

Definition dyn_step_uses_cache (step : value) : result bool :=
  t <- dyn_scalar step "task" ;;
  ret (match t with Some t => is_cache_task cfg t | None => false end).

(** Modelled from the spec (4.2): the extractor, written with the probes
    that may raise and the tests that the algorithm makes. *)
Definition extract_dyn (doc : value) : result metrics :=
  sts <- dyn_locate_stages doc ;;
  steps <- dyn_all_steps sts ;;
  caching <- for_each dyn_step_uses_cache steps ;;
  trigger <- dyn_has_key doc "trigger" ;;
  conditions <- for_each (fun s => dyn_has_key s "condition") steps ;;
  ret {| stages_count := List.length sts;
         jobs_per_stage := count_jobs 0 sts [];
         total_steps := List.length steps;
         has_caching := existsb (fun b => b) caching;
         has_trigger := trigger;
         has_condition := existsb (fun b => b) conditions |}.

Definition dyn_rule : Type := value -> metrics -> result (option string).

Definition dyn_rule_no_trigger : dyn_rule := fun doc _ =>
  t <- dyn_has_key doc "trigger" ;;
  ret (if t then None else Some (msg_no_trigger cfg)).

(** The rules that read the metrics only cannot raise. *)
Definition dyn_rules : list dyn_rule :=
  [ (fun doc m => ret (rule_no_stages doc m));
    (fun doc m => ret (rule_split_stage doc m));
    (fun doc m => ret (rule_add_caching doc m));
    dyn_rule_no_trigger ].

(** Modelled from the spec (4.3): the battery over the probes. *)
Definition evaluate_dyn (doc : value) (m : metrics) : result (list string) :=
  fired <- for_each (fun r : dyn_rule =>
                       o <- r doc m ;;
                       ret (match o with Some msg => [msg] | None => [] end))
                    dyn_rules ;;
  ret (match List.concat fired with
       | [] => [msg_looks_good]
       | ws => ws
       end).

End Engine.

(** Illustrative configuration (thresholds as in the spec's examples). *)
Definition example_config : config :=
  {| max_jobs_per_stage := 10;
     caching_step_threshold := 5;
     is_cache_task := fun t => String.eqb t "Cache@2";
     msg_no_stages := "No stages or jobs detected";
     msg_split_stage := fun k => "Consider splitting stage " ++ k;
     msg_add_caching := "Consider adding caching";
     msg_no_trigger := "Define an explicit trigger" |}.

End Analyzer.

(* ===================================================================== *)
(** * Part II: the React components *)
(* ===================================================================== *)

Module Frontend.

(** ** JavaScript strings *)

(** A JavaScript string is a sequence of UTF-16 code units. *)
Definition code_unit : Type := N.
Definition jsstring : Type := list code_unit.

(** Source literals (all ASCII in these components). *)
Definition str (s : string) : jsstring :=
  map N_of_ascii (list_ascii_of_string s).

Fixpoint jsstring_eqb (a b : jsstring) : bool :=
  match a, b with
  | [], [] => true
  | x :: a', y :: b' => N.eqb x y && jsstring_eqb a' b'
  | _, _ => false
  end.

(** ToBoolean on a string: only the empty string is falsy. *)
Definition truthy_string (s : jsstring) : bool :=
  match s with [] => false | _ :: _ => true end.

(** [searchString] occurs in [s] at position 0. *)
Fixpoint starts_with (searchString s : jsstring) : bool :=
  match searchString, s with
  | [], _ => true
  | _ :: _, [] => false
  | a :: searchString', b :: s' => N.eqb a b && starts_with searchString' s'
  end.

(** [String.prototype.includes]: [searchString] occurs at some position. *)
Fixpoint includes (s searchString : jsstring) : bool :=
  starts_with searchString s
  || match s with
     | [] => false
     | _ :: s' => includes s' searchString
     end.

(** ECMAScript WhiteSpace and LineTerminator code points, the characters
    removed by [String.prototype.trim]. *)
Definition is_white_space (c : code_unit) : bool :=
  (N.leb 9 c && N.leb c 13)          (* TAB, LF, VT, FF, CR *)
  || N.eqb c 32                      (* SPACE *)
  || N.eqb c 160                     (* NO-BREAK SPACE *)
  || N.eqb c 5760                    (* U+1680 *)
  || (N.leb 8192 c && N.leb c 8202)  (* U+2000 .. U+200A *)
  || N.eqb c 8232 || N.eqb c 8233    (* LINE / PARAGRAPH SEPARATOR *)
  || N.eqb c 8239                    (* U+202F *)
  || N.eqb c 8287                    (* U+205F *)
  || N.eqb c 12288                   (* U+3000 *)
  || N.eqb c 65279.                  (* U+FEFF *)

Fixpoint trim_start (s : jsstring) : jsstring :=
  match s with
  | [] => []
  | c :: rest => if is_white_space c then trim_start rest else s
  end.

Definition trim_end (s : jsstring) : jsstring := rev (trim_start (rev s)).

Definition trim (s : jsstring) : jsstring := trim_end (trim_start s).

(** Empty, or made of white space and line terminators only. *)
Definition blank (s : jsstring) : bool := forallb is_white_space s.

(** ** PipelineAnalyzer.js *)

Module PipelineAnalyzer.

(** [response.data] of the analyze endpoint, as far as the component
    reads it; a field is [None] when it is undefined. *)
Record metrics_view : Type := mkMetricsView
  { stages_count : option nat;
    jobs_per_stage : option (list (jsstring * nat)) }.

Record response_data : Type := mkData
  { data_analysis : option metrics_view;
    data_recommendations : option (list jsstring) }.

(** The four [useState] cells. *)
Record state : Type := mkState
  { yamlContent : jsstring;
    analysis : option response_data;
    loading : bool;
    error : jsstring }.

Definition initial_state : state := mkState [] None false [].

Definition setYamlContent (v : jsstring) (st : state) : state :=
  mkState v (analysis st) (loading st) (error st).
Definition setAnalysis (v : option response_data) (st : state) : state :=
  mkState (yamlContent st) v (loading st) (error st).
Definition setLoading (v : bool) (st : state) : state :=
  mkState (yamlContent st) (analysis st) v (error st).
Definition setError (v : jsstring) (st : state) : state :=
  mkState (yamlContent st) (analysis st) (loading st) v.

(** The body of the POST request. *)
Record request : Type := mkRequest
  { url : jsstring;
    yaml_content : jsstring }.

(** How the awaited [axios.post] settles.  A rejection carries
    [err.response?.data?.error], [None] when that chain is undefined. *)
Inductive outcome : Type :=
| Resolved (data : response_data)
| Rejected (server_error : option jsstring).

(** [a || b] where [a] is a string or undefined. *)
Definition or_else (a : option jsstring) (b : jsstring) : jsstring :=
  match a with
  | Some s => if truthy_string s then s else b
  | None => b
  end.

(** [handleAnalyze]: the state after the handler has run to completion,
    and the requests it sent, given how the network answers. *)
Definition handleAnalyze (net : request -> outcome) (st : state)
  : state * list request :=
  if negb (truthy_string (trim (yamlContent st))) then
    (setError (str "Please enter YAML content to analyze") st, [])
  else
    let st1 := setError [] (setLoading true st) in
    let req := mkRequest (str "/api/pipelines/analyze") (yamlContent st) in
    let st2 :=
      match net req with
      | Resolved data => setAnalysis (Some data) st1
      | Rejected e => setError (or_else e (str "Failed to analyze pipeline")) st1
      end in
    (setLoading false st2, [req]).

(** [handleYamlChange], applied to [event.target.value]. *)
Definition handleYamlChange (v : jsstring) (st : state) : state :=
  let st1 := setYamlContent v st in
  let st2 := match analysis st with Some _ => setAnalysis None st1 | None => st1 end in
  if truthy_string (error st) then setError [] st2 else st2.

(** The [disabled] property of the Analyze button. *)
Definition analyzeDisabled (st : state) : bool :=
  loading st || negb (truthy_string (trim (yamlContent st))).

(** The recommendation list items. *)
Inductive icon : Type :=
| CheckCircleIcon_success
| WarningIcon_warning.

Record list_item : Type := mkItem
  { item_key : nat;
    item_icon : icon;
    item_primary : jsstring }.

Definition recommendationItem (rec : jsstring) (index : nat) : list_item :=
  mkItem index
         (if includes rec (str "looks good")
          then CheckCircleIcon_success else WarningIcon_warning)
         rec.

(** [recs.map((rec, index) => ...)], indices starting at [index]. *)
Fixpoint map_items (index : nat) (recs : list jsstring) : list list_item :=
  match recs with
  | [] => []
  | rec :: rest => recommendationItem rec index :: map_items (S index) rest
  end.

(** [analysis.recommendations?.map(...)]. *)
Definition renderRecommendations (data : response_data) : list list_item :=
  match data_recommendations data with
  | Some recs => map_items 0 recs
  | None => []
  end.

(** *** The handler in two parts *)

(** [handleAnalyze] is an [async] function: it runs up to the [await]
    when the button is clicked, and resumes when the request settles. *)

(** Up to the [await]: the guard, [setLoading(true)], [setError('')] and
    the call of [axios.post]. *)
Definition handleAnalyze_begin (st : state) : state * list request :=
  if negb (truthy_string (trim (yamlContent st))) then
    (setError (str "Please enter YAML content to analyze") st, [])
  else
    (setError [] (setLoading true st),
     [mkRequest (str "/api/pipelines/analyze") (yamlContent st)]).

(** After the [await]: the rest of [try], or [catch], then [finally].
    The setters act on the state the component has by then. *)
Definition handleAnalyze_settle (o : outcome) (st : state) : state :=
  setLoading false
    (match o with
     | Resolved data => setAnalysis (Some data) st
     | Rejected e => setError (or_else e (str "Failed to analyze pipeline")) st
     end).

(** *** What the component shows *)

(** [{error && <Alert severity="error">{error}</Alert>}]. *)
Definition errorAlert (st : state) : option jsstring :=
  if truthy_string (error st) then Some (error st) else None.

(** [{analysis && <Paper>...</Paper>}]. *)
Definition resultsPanel (st : state) : option response_data := analysis st.

(** [{loading ? 'Analyzing...' : 'Analyze Pipeline'}]. *)
Definition buttonLabel (st : state) : jsstring :=
  if loading st then str "Analyzing..." else str "Analyze Pipeline".

(** *** The jobs list *)

(** A number in a template literal (the counts are natural numbers). *)
Definition number_to_string (n : nat) : jsstring :=
  str (NilEmpty.string_of_uint (Nat.to_uint n)).

Definition is_digit (c : code_unit) : bool := N.leb 48 c && N.leb c 57.

(** The number a string of decimal digits denotes. *)
Definition index_value (k : jsstring) : N :=
  fold_left (fun acc c => (10 * acc + (c - 48))%N) k 0%N.

(** An array index: the canonical decimal form of an integer between 0
    and 2^32 - 2. *)
Definition is_array_index (k : jsstring) : bool :=
  match k with
  | [] => false
  | c :: rest =>
      forallb is_digit k
      && (negb (N.eqb c 48) || match rest with [] => true | _ :: _ => false end)
      && N.ltb (index_value k) 4294967295
  end.

Definition indexed (A : Type) (e : jsstring * A) : bool := is_array_index (fst e).

Fixpoint insert_by_index (A : Type) (e : jsstring * A) (l : list (jsstring * A))
  : list (jsstring * A) :=
  match l with
  | [] => [e]
  | e' :: rest =>
      if N.leb (index_value (fst e)) (index_value (fst e'))
      then e :: l
      else e' :: insert_by_index e rest
  end.

Definition sort_by_index (A : Type) (l : list (jsstring * A)) : list (jsstring * A) :=
  fold_right (@insert_by_index A) [] l.

(** [Object.entries(o)] for an object whose own properties, in the order
    of their creation, are [props]: array indices first, in ascending
    numeric order, then the other keys in creation order. *)
Definition object_entries (A : Type) (props : list (jsstring * A))
  : list (jsstring * A) :=
  sort_by_index (filter (@indexed A) props)
  ++ filter (fun e => negb (indexed e)) props.

(** Ascending numeric order of the keys. *)
Definition index_le (A : Type) (e1 e2 : jsstring * A) : Prop :=
  (index_value (fst e1) <= index_value (fst e2))%N.

Record job_item : Type := mkJobItem
  { job_key : jsstring;
    job_primary : jsstring;
    job_secondary : jsstring }.

(** [([stage, jobs]) => <ListItem key={stage}> ... </ListItem>]. *)
Definition jobItem (e : jsstring * nat) : job_item :=
  mkJobItem (fst e)
            (str "Jobs in " ++ fst e ++ str ": " ++ number_to_string (snd e))
            (fst e).

(** [analysis.analysis?.jobs_per_stage && Object.entries(...).map(...)]. *)
Definition renderJobs (data : response_data) : list job_item :=
  match data_analysis data with
  | Some a =>
      match jobs_per_stage a with
      | Some props => map jobItem (object_entries props)
      | None => []
      end
  | None => []
  end.

(** *** Sessions *)

(** What can happen to the mounted component: the text field changes,
    the Analyze button is clicked, a request in flight settles. *)
Inductive event : Type :=
| Change (v : jsstring)
| Click
| Settle (o : outcome).

(** The component state, the requests awaiting an answer (oldest first)
    and all the requests sent so far. *)
Record session : Type := mkSession
  { component : state;
    in_flight : list request;
    sent : list request }.

Definition initial_session : session := mkSession initial_state [] [].

(** One event.  A disabled button takes no click; nothing settles when
    no request is in flight. *)
Definition step (s : session) (e : event) : option session :=
  match e with
  | Change v =>
      Some (mkSession (handleYamlChange v (component s)) (in_flight s) (sent s))
  | Click =>
      if analyzeDisabled (component s) then None
      else
        let (st, reqs) := handleAnalyze_begin (component s) in
        Some (mkSession st (in_flight s ++ reqs) (sent s ++ reqs))
  | Settle o =>
      match in_flight s with
      | [] => None
      | _ :: rest =>
          Some (mkSession (handleAnalyze_settle o (component s)) rest (sent s))
      end
  end.

Fixpoint run (s : session) (events : list event) : option session :=
  match events with
  | [] => Some s
  | e :: rest =>
      match step s e with
      | Some s' => run s' rest
      | None => None
      end
  end.

(** What every event keeps true of a session. *)
Definition invariant (s : session) : Prop :=
  List.length (in_flight s) <= 1 /\
  (loading (component s) = true <-> in_flight s <> []) /\
  (loading (component s) = true -> error (component s) = []) /\
  Forall (fun r => url r = str "/api/pipelines/analyze" /\
                   blank (yaml_content r) = false) (sent s).

End PipelineAnalyzer.

(** ** PipelineList.js *)

Module PipelineList.

(** JavaScript values, as far as [getStatusChip] meets them.  A [JObject]
    is an object literal (own properties in order, prototype
    [Object.prototype]); a [JBuiltin] is a built-in of the runtime reached
    through the prototype chain: a method of [Object.prototype], or
    [Object.prototype] itself for [__proto__]. *)
Inductive jsval : Type :=
| JUndefined
| JString (s : jsstring)
| JObject (own : list (jsstring * jsval))
| JBuiltin (name : jsstring).

Fixpoint own_property (k : jsstring) (own : list (jsstring * jsval)) : option jsval :=
  match own with
  | [] => None
  | (k', v) :: rest => if jsstring_eqb k k' then Some v else own_property k rest
  end.

(** The property names every object inherits from [Object.prototype]. *)
Definition object_prototype_names : list jsstring :=
  map str
    [ "constructor"; "__defineGetter__"; "__defineSetter__"; "hasOwnProperty";
      "__lookupGetter__"; "__lookupSetter__"; "isPrototypeOf";
      "propertyIsEnumerable"; "toString"; "valueOf"; "__proto__";
      "toLocaleString" ]%string.

Definition inherited (k : jsstring) : bool :=
  existsb (jsstring_eqb k) object_prototype_names.

(** [o[k]]: own properties first, then the prototype chain.  The
    built-ins have no property named [label] or [color], the only names
    read from them here; their own tables are not modelled further. *)
Definition get_property (o : jsval) (k : jsstring) : jsval :=
  match o with
  | JObject own =>
      match own_property k own with
      | Some v => v
      | None => if inherited k then JBuiltin k else JUndefined
      end
  | JBuiltin _ => if inherited k then JBuiltin k else JUndefined
  | JString _ | JUndefined => JUndefined
  end.

Definition truthy (v : jsval) : bool :=
  match v with
  | JUndefined => false
  | JString s => truthy_string s
  | JObject _ | JBuiltin _ => true
  end.

Definition js_or (a b : jsval) : jsval := if truthy a then a else b.

Definition entry (label color : string) : jsval :=
  JObject [ (str "label", JString (str label)); (str "color", JString (str color)) ].

Definition statusMap : jsval :=
  JObject
    [ (str "succeeded", entry "Succeeded" "success");
      (str "failed", entry "Failed" "error");
      (str "running", entry "Running" "info");
      (str "default", entry "Unknown" "default") ].

(** The properties of the rendered [<Chip />]. *)
Record chip : Type := mkChip
  { chip_label : jsval;
    chip_color : jsval;
    chip_size : jsstring }.

Inductive thrown : Type := TypeError.

(** [const { label, color } = v]: throws on undefined. *)
Definition destructure_label_color (v : jsval) : thrown + (jsval * jsval) :=
  match v with
  | JUndefined => inl TypeError
  | _ => inr (get_property v (str "label"), get_property v (str "color"))
  end.

Definition getStatusChip (status : jsstring) : thrown + chip :=
  match destructure_label_color
          (js_or (get_property statusMap status)
                 (get_property statusMap (str "default"))) with
  | inl e => inl e
  | inr (label, color) => inr (mkChip label color (str "small"))
  end.

Definition unknown_chip : chip :=
  mkChip (JString (str "Unknown")) (JString (str "default")) (str "small").

(** *** The component *)

Record pipeline : Type := mkPipeline
  { id : jsstring;
    name : jsstring;
    status : jsstring;
    lastRun : jsstring }.

(** The three [useState] cells. *)
Record state : Type := mkState
  { pipelines : list pipeline;
    loading : bool;
    error : jsstring }.

Definition initial_state : state := mkState [] true [].

Definition setPipelines (v : list pipeline) (st : state) : state :=
  mkState v (loading st) (error st).
Definition setLoading (v : bool) (st : state) : state :=
  mkState (pipelines st) v (error st).
Definition setError (v : jsstring) (st : state) : state :=
  mkState (pipelines st) (loading st) v.

Definition mock_pipelines : list pipeline :=
  [ mkPipeline (str "1") (str "CI/CD Pipeline") (str "succeeded")
               (str "2023-07-25T10:30:00Z");
    mkPipeline (str "2") (str "Deployment Pipeline") (str "failed")
               (str "2023-07-24T15:45:00Z");
    mkPipeline (str "3") (str "Test Pipeline") (str "succeeded")
               (str "2023-07-25T08:15:00Z") ].

(** The component state and the number of timers set and not yet fired. *)
Record session : Type := mkSession
  { component : state;
    timers : nat }.

Definition initial_session : session := mkSession initial_state 0.

(** [setTimeout(callback, 1000)] registers a timer; it does not throw. *)
Definition setTimeout (timers : nat) : thrown + nat := inr (S timers).

(** [fetchPipelines], up to the end of the [try] statement. *)
Definition fetchPipelines (s : session) : session :=
  let st := setError [] (setLoading true (component s)) in
  match setTimeout (timers s) with
  | inr timers' => mkSession st timers'
  | inl _ =>
      mkSession (setLoading false (setError (str "Failed to fetch pipelines") st))
                (timers s)
  end.

(** The callback handed to [setTimeout]. *)
Definition timer_callback (st : state) : state :=
  setLoading false (setPipelines mock_pipelines st).

Definition handleRefresh (s : session) : session := fetchPipelines s.

(** The [disabled] property of the refresh button. *)
Definition refreshDisabled (st : state) : bool := loading st.

(** The effect run on mount, a click on the refresh button, a timer
    that fires. *)
Inductive event : Type :=
| Mount
| ClickRefresh
| TimerFires.

Definition step (s : session) (e : event) : option session :=
  match e with
  | Mount => Some (fetchPipelines s)
  | ClickRefresh =>
      if refreshDisabled (component s) then None else Some (handleRefresh s)
  | TimerFires =>
      match timers s with
      | O => None
      | S n => Some (mkSession (timer_callback (component s)) n)
      end
  end.

Fixpoint run (s : session) (events : list event) : option session :=
  match events with
  | [] => Some s
  | e :: rest =>
      match step s e with
      | Some s' => run s' rest
      | None => None
      end
  end.

(** What every event keeps true of the component state. *)
Definition invariant (st : state) : Prop :=
  error st = [] /\
  (pipelines st = [] \/ pipelines st = mock_pipelines) /\
  (loading st = false -> pipelines st = mock_pipelines).

(** *** What the component shows *)

(** The children of [<List>]: a list item per pipeline, and dividers. *)
Inductive element : Type :=
| PipelineItem (key primary secondary : jsstring) (statusChip : thrown + chip)
| DividerItem.

Section Render.

(** [new Date(dateString).toLocaleString()] depends on the locale and
    the time zone of the browser. *)
Variable formatDate : jsstring -> jsstring.

Definition pipelineItem (p : pipeline) : element :=
  PipelineItem (id p) (name p)
               (str "Last run: " ++ formatDate (lastRun p))
               (getStatusChip (status p)).

(** [pipelines.map((pipeline, index) => ...)], from position [index] on;
    [len] is [pipelines.length]. *)
Fixpoint map_pipelines (len : Z) (index : Z) (ps : list pipeline) : list element :=
  match ps with
  | [] => []
  | p :: rest =>
      pipelineItem p
      :: (if Z.ltb index (len - 1) then [DividerItem] else [])
      ++ map_pipelines len (index + 1) rest
  end.

Inductive body : Type :=
| Spinner
| ErrorText (message : jsstring)
| NoPipelinesFound
| PipelineItems (children : list element).

(** The nested conditional under the header. *)
Definition render (st : state) : body :=
  if loading st then Spinner
  else if truthy_string (error st) then ErrorText (error st)
  else if Nat.eqb (List.length (pipelines st)) 0 then NoPipelinesFound
  else PipelineItems
         (map_pipelines (Z.of_nat (List.length (pipelines st))) 0 (pipelines st)).

End Render.

End PipelineList.

(** ** App.js *)

Module App.

(** What [TabPanel] renders: the [hidden] attribute of its [div], and
    whether its children are in the tree. *)
Record tab_panel : Type := mkTabPanel
  { hidden : bool;
    children_rendered : bool }.

Definition TabPanel (value index : nat) : tab_panel :=
  mkTabPanel (negb (Nat.eqb value index)) (Nat.eqb value index).

(** The [tabValue] cell and the state of the two child components; a
    child that is not in the tree has no state. *)
Record state : Type := mkState
  { tabValue : nat;
    analyzer : option PipelineAnalyzer.state;
    pipelineList : option PipelineList.session }.

(** The children that the panels put in the tree for a tab value: a
    child that stays keeps its state, a child that enters starts from its
    initial state (and [PipelineList] runs its mount effect), a child
    that leaves is dropped. *)
Definition reconcile (value : nat) (st : state) : state :=
  mkState value
    (if children_rendered (TabPanel value 0) then
       match analyzer st with
       | Some a => Some a
       | None => Some PipelineAnalyzer.initial_state
       end
     else None)
    (if children_rendered (TabPanel value 1) then
       match pipelineList st with
       | Some l => Some l
       | None => Some (PipelineList.fetchPipelines PipelineList.initial_session)
       end
     else None).

(** First render: [useState(0)]. *)
Definition initial_state : state := reconcile 0 (mkState 0 None None).

(** [handleTabChange(event, newValue)], and the render that follows. *)
Definition handleTabChange (newValue : nat) (st : state) : state :=
  reconcile newValue st.

End App.

End Frontend.

Unset Implicit Arguments.

(* ===================================================================== *)
(** * Sample inputs *)
(* ===================================================================== *)

Module Samples.

Import Analyzer.
Local Open Scope string_scope.

Definition script_step (s : string) : value := Map [("script", Scalar s)].

Definition empty_job : value := Map [("steps", Seq [])].

Definition named_stage (name : string) (jobs : nat) : value :=
  Map [("displayName", Scalar name); ("jobs", Seq (repeat empty_job jobs))].

(** Scenario B: steps at top level, no trigger, no caching. *)
Definition scenario_B : value :=
  Map [("steps", Seq [script_step "echo a"; script_step "echo b"; script_step "echo c"])].

(** Scenario C: two named stages, one job and twelve jobs. *)
Definition scenario_C : value :=
  Map [("trigger", Seq [Scalar "main"]);
       ("stages", Seq [named_stage "Build" 1; named_stage "Deploy" 12])].

(** Two stages declared under the same name. *)
Definition duplicate_names : value :=
  Map [("stages", Seq [named_stage "Build" 1; named_stage "Build" 2])].

(** A large stage whose name is reused by a later, small stage. *)
Definition repeated_name_large : value :=
  Map [("trigger", Seq [Scalar "main"]);
       ("stages", Seq [named_stage "Build" 12; named_stage "Build" 1])].

(** Stages without a name, one of them at position 10. *)
Definition unnamed_stages : value :=
  Map [("stages", Seq (repeat (Map [("jobs", Seq [empty_job])]) 11))].

(** A document whose optional keys all have the wrong shape. *)
Definition malformed_keys : value :=
  Map [("stages", Scalar "none"); ("jobs", Null); ("steps", Map [])].

(** Stages whose document order is not the alphabetical one. *)
Definition deploy_then_build : value :=
  Map [("stages", Seq [named_stage "Deploy" 1; named_stage "Build" 1])].

(** Scenario D: explicit trigger, a cache task, few jobs. *)
Definition scenario_D : value :=
  Map [("trigger", Seq [Scalar "main"]);
       ("stages",
        Seq [Map [("displayName", Scalar "Build");
                  ("jobs",
                   Seq [Map [("steps",
                              Seq [Map [("task", Scalar "Cache@2")];
                                   script_step "make"])]])]])].

Definition scenario_B_text : string :=
  "steps: [{script: echo a}, {script: echo b}, {script: echo c}]".

(** A loader that knows a single text, enough to run [analyze]. *)
Definition one_text_loader (text : string) : string + value :=
  if String.eqb text scenario_B_text then inr scenario_B
  else inl "could not parse".

End Samples.

(* ===================================================================== *)
(** * Properties of the analysis engine *)
(* ===================================================================== *)

Import Analyzer.

Section OrderedMaps.

Lemma count_jobs_app (sts : list stage) : forall i m,
  count_jobs i sts m = m ++ count_jobs i sts [].
Proof.
  induction sts as [| st rest IH]; intros i m; simpl.
  - now rewrite app_nil_r.
  - rewrite (IH (S i) (m ++ _)), (IH (S i) [_]). now rewrite <- app_assoc.
Qed.

(** Each stage contributes its own entry, ahead of the later stages. *)
Lemma count_jobs_cons (i : nat) (st : stage) (rest : list stage) :
  count_jobs i (st :: rest) [] =
  (stage_key i st, List.length (stage_jobs st)) :: count_jobs (S i) rest [].
Proof. simpl. now rewrite count_jobs_app. Qed.

Lemma count_jobs_length (sts : list stage) : forall i,
  List.length (count_jobs i sts []) = List.length sts.
Proof.
  induction sts as [| st rest IH]; intros i; [reflexivity |].
  rewrite count_jobs_cons. simpl. now rewrite IH.
Qed.

Lemma count_jobs_keys (sts : list stage) : forall i,
  om_keys (count_jobs i sts []) = stage_keys i sts.
Proof.
  induction sts as [| st rest IH]; intros i; [reflexivity |].
  rewrite count_jobs_cons. unfold om_keys in *. simpl. now rewrite IH.
Qed.

Lemma count_jobs_nth (sts : list stage) : forall i j st,
  nth_error sts j = Some st ->
  nth_error (count_jobs i sts []) j =
    Some (stage_key (i + j) st, List.length (stage_jobs st)).
Proof.
  induction sts as [| st0 rest IH]; intros i j st Hj.
  - destruct j; discriminate.
  - rewrite count_jobs_cons. destruct j as [| j]; simpl in *.
    + injection Hj as <-. now rewrite Nat.add_0_r.
    + rewrite (IH (S i) j st Hj). do 3 f_equal. lia.
Qed.

Lemma count_jobs_counts (sts : list stage) : forall i,
  Forall2 (fun st e => snd e = List.length (stage_jobs st))
          sts (count_jobs i sts []).
Proof.
  induction sts as [| st rest IH]; intros i.
  - constructor.
  - rewrite count_jobs_cons. constructor; [reflexivity | apply IH].
Qed.

Lemma om_set_fresh (A : Type) (k : string) (v : A) (m : omap A) :
  ~ In k (om_keys m) -> om_set k v m = m ++ [(k, v)].
Proof.
  induction m as [| [k' v'] rest IH]; intros Hk; simpl.
  - reflexivity.
  - destruct (String.eqb k k') eqn:E.
    + apply String.eqb_eq in E. subst. exfalso. apply Hk. now left.
    + rewrite IH; [reflexivity |]. intros H. apply Hk. now right.
Qed.

Lemma om_of_entries_app (A : Type) (entries : list (string * A)) : forall m,
  NoDup (om_keys (m ++ entries)) ->
  fold_left (fun m e => om_set (fst e) (snd e) m) entries m = m ++ entries.
Proof.
  induction entries as [| [k v] rest IH]; intros m Hnd; simpl.
  - now rewrite app_nil_r.
  - assert (Hk : ~ In k (om_keys m)).
    { unfold om_keys in *. rewrite map_app in Hnd. simpl in Hnd.
      apply NoDup_remove_2 in Hnd. intros H. apply Hnd.
      apply in_or_app. now left. }
    rewrite (om_set_fresh A k v m Hk), IH; rewrite <- app_assoc; [reflexivity |].
    exact Hnd.
Qed.

(** When the keys are pairwise distinct, the entries are the mapping
    that keyed assignment builds from them. *)
Lemma om_of_entries_distinct (A : Type) (entries : list (string * A)) :
  NoDup (om_keys entries) -> om_of_entries entries = entries.
Proof.
  intros H. unfold om_of_entries. now rewrite om_of_entries_app.
Qed.

(** The placeholder number is written in decimal. *)
Lemma string_to_nat_to_string (n : nat) :
  string_to_nat (nat_to_string n) = Some n.
Proof.
  unfold string_to_nat, nat_to_string. rewrite NilEmpty.usu. simpl.
  now rewrite DecimalNat.Unsigned.of_to.
Qed.

Lemma nat_to_string_inj (i j : nat) :
  nat_to_string i = nat_to_string j -> i = j.
Proof.
  intros H. apply (f_equal string_to_nat) in H.
  rewrite !string_to_nat_to_string in H. now injection H.
Qed.

End OrderedMaps.

Section Probes.

Lemma holds_get (test : value -> bool) (v : value) (k : string) :
  holds test v k =
  inr (match get k v with Some x => test x | None => false end).
Proof.
  destruct v as [| s | l | kvs]; try reflexivity.
  unfold holds, contains, subscript, get, bind, ret. simpl.
  now destruct (assoc k kvs).
Qed.

Lemma dyn_sequence_get (v : value) (k : string) :
  dyn_sequence v k = inr (get_sequence k v).
Proof.
  unfold dyn_sequence. rewrite holds_get. unfold get_sequence.
  destruct v as [| s | l | kvs]; try reflexivity.
  unfold bind, ret, subscript, get. simpl.
  destruct (assoc k kvs) as [[| s | l | m] |]; reflexivity.
Qed.

Lemma dyn_scalar_get (v : value) (k : string) :
  dyn_scalar v k = inr (get_scalar k v).
Proof.
  unfold dyn_scalar. rewrite holds_get. unfold get_scalar.
  destruct v as [| s | l | kvs]; try reflexivity.
  unfold bind, ret, subscript, get. simpl.
  destruct (assoc k kvs) as [[| s | l | m] |]; reflexivity.
Qed.

Lemma dyn_has_key_get (v : value) (k : string) :
  dyn_has_key v k = inr (has_key k v).
Proof. destruct v; reflexivity. Qed.

(** A probe of the sequence under a key raises exactly when the total
    accessor finds no sequence. *)
Lemma raw_sequence_raises (v : value) (k : string) (e : raised) :
  (x <- subscript v k ;; elements x) = inl e -> get_sequence k v = None.
Proof.
  unfold get_sequence, get, subscript, bind.
  destruct v as [| s | l | kvs]; try reflexivity.
  destruct (assoc k kvs) as [[| s | l | m] |]; try reflexivity. discriminate.
Qed.

Lemma raw_scalar_raises (v : value) (k : string) (e : raised) :
  (x <- subscript v k ;; text x) = inl e -> get_scalar k v = None.
Proof.
  unfold get_scalar, get, subscript, bind.
  destruct v as [| s | l | kvs]; try reflexivity.
  destruct (assoc k kvs) as [[| s | l | m] |]; try reflexivity. discriminate.
Qed.

Lemma for_each_map (A B : Type) (f : A -> result B) (g : A -> B) (l : list A) :
  (forall a, f a = inr (g a)) -> for_each f l = inr (map g l).
Proof.
  intros H. induction l as [| a rest IH]; simpl; [reflexivity |].
  now rewrite H, IH.
Qed.

Lemma existsb_map_id (A : Type) (f : A -> bool) (l : list A) :
  existsb (fun b => b) (map f l) = existsb f l.
Proof.
  induction l as [| a rest IH]; simpl; [reflexivity | now rewrite IH].
Qed.

Lemma dyn_declared_name_ok (v : value) :
  dyn_declared_name v = inr (declared_name v).
Proof.
  unfold dyn_declared_name, declared_name. rewrite dyn_scalar_get. simpl.
  destruct (get_scalar "displayName" v); [reflexivity | apply dyn_scalar_get].
Qed.

Lemma dyn_locate_jobs_ok (v : value) :
  dyn_locate_jobs v = inr (locate_jobs v).
Proof.
  unfold dyn_locate_jobs, locate_jobs. rewrite dyn_sequence_get. simpl.
  destruct (get_sequence "jobs" v); [reflexivity |].
  rewrite dyn_sequence_get. simpl.
  now destruct (get_sequence "steps" v).
Qed.

Lemma dyn_locate_stages_ok (doc : value) :
  dyn_locate_stages doc = inr (locate_stages doc).
Proof.
  unfold dyn_locate_stages, locate_stages, has_job_structure.
  rewrite dyn_sequence_get. simpl.
  destruct (get_sequence "stages" doc) as [ss |].
  - apply for_each_map. intros s.
    now rewrite dyn_declared_name_ok, dyn_locate_jobs_ok.
  - rewrite !dyn_sequence_get. simpl.
    destruct (get_sequence "jobs" doc), (get_sequence "steps" doc);
      try reflexivity; now rewrite dyn_locate_jobs_ok.
Qed.

Lemma dyn_job_steps_ok (job : value) :
  dyn_job_steps job = inr (job_steps job).
Proof.
  unfold dyn_job_steps, job_steps, get_sequence_or_empty.
  now rewrite dyn_sequence_get.
Qed.

Lemma dyn_all_steps_ok (sts : list stage) :
  dyn_all_steps sts = inr (all_steps sts).
Proof.
  unfold dyn_all_steps, all_steps.
  rewrite (for_each_map _ _ _ (fun st => flat_map job_steps (stage_jobs st))).
  - simpl. now rewrite flat_map_concat_map.
  - intros st. rewrite (for_each_map _ _ _ job_steps _ dyn_job_steps_ok).
    simpl. now rewrite flat_map_concat_map.
Qed.

End Probes.

Section Extraction.

Variable cfg : config.

Lemma jobs_per_stage_length (doc : value) :
  List.length (jobs_per_stage (extract cfg doc)) =
  List.length (locate_stages doc).
Proof. unfold extract; simpl. apply count_jobs_length. Qed.

Lemma jobs_per_stage_keys (doc : value) :
  om_keys (jobs_per_stage (extract cfg doc)) = stage_keys 0 (locate_stages doc).
Proof. unfold extract; simpl. apply count_jobs_keys. Qed.

(** With pairwise distinct stage keys, [jobs_per_stage] is the mapping
    that the assignments [jobs_per_stage[key] = count] build. *)
Lemma jobs_per_stage_keyed_assignment (doc : value) :
  NoDup (stage_keys 0 (locate_stages doc)) ->
  om_of_entries (jobs_per_stage (extract cfg doc)) =
  jobs_per_stage (extract cfg doc).
Proof.
  intros H. apply om_of_entries_distinct. now rewrite jobs_per_stage_keys.
Qed.

Lemma dyn_step_uses_cache_ok (step : value) :
  dyn_step_uses_cache cfg step = inr (step_uses_cache cfg step).
Proof.
  unfold dyn_step_uses_cache, step_uses_cache. now rewrite dyn_scalar_get.
Qed.

Lemma extract_dyn_ok (doc : value) :
  extract_dyn cfg doc = inr (extract cfg doc).
Proof.
  unfold extract_dyn, extract.
  rewrite dyn_locate_stages_ok. cbn [bind].
  rewrite dyn_all_steps_ok. cbn [bind].
  rewrite (for_each_map _ _ _ (step_uses_cache cfg) _ dyn_step_uses_cache_ok).
  cbn [bind]. rewrite dyn_has_key_get. cbn [bind].
  rewrite (for_each_map _ _ _ (has_key "condition") _
             (fun s => dyn_has_key_get s "condition")).
  cbn [bind]. unfold ret. now rewrite !existsb_map_id.
Qed.

Lemma evaluate_cases (doc : value) (m : metrics) :
  (warnings cfg doc m = [] /\ evaluate cfg doc m = [msg_looks_good]) \/
  (warnings cfg doc m <> [] /\ evaluate cfg doc m = warnings cfg doc m).
Proof.
  unfold evaluate. destruct (warnings cfg doc m) as [| w ws].
  - left. now split.
  - right. split; [discriminate | reflexivity].
Qed.

Lemma evaluate_nonempty (doc : value) (m : metrics) : evaluate cfg doc m <> [].
Proof.
  destruct (evaluate_cases doc m) as [[_ E] | [N E]]; rewrite E;
    [discriminate | assumption].
Qed.

Lemma warnings_unfold (doc : value) (m : metrics) :
  warnings cfg doc m =
  fire doc m (rule_no_stages cfg) ++ fire doc m (rule_split_stage cfg)
  ++ fire doc m (rule_add_caching cfg) ++ fire doc m (rule_no_trigger cfg).
Proof. unfold warnings, rules. simpl. now rewrite app_nil_r. Qed.

Lemma evaluate_dyn_ok (doc : value) (m : metrics) :
  evaluate_dyn cfg doc m = inr (evaluate cfg doc m).
Proof.
  unfold evaluate_dyn, dyn_rules, dyn_rule_no_trigger.
  cbn [for_each bind ret]. rewrite dyn_has_key_get. cbn [bind].
  unfold evaluate, warnings, rules, fire, rule_no_trigger. simpl.
  reflexivity.
Qed.

End Extraction.

Section Loader.

Variable cfg : config.
Variable parse : string -> string + value.

(** A failure of the loader is reported as a [ParseError] carrying the
    loader's message; no result is made up for it. *)
Lemma analyze_parse_failure (text message : string) :
  parse text = inl message ->
  analyze cfg parse text = inl (ParseError message) /\
  (forall r, analyze cfg parse text <> inr r) /\
  ParseError message <> InputTooLarge.
Proof.
  intros H. unfold analyze. rewrite H. repeat split; discriminate.
Qed.

(** A document handed over by the loader always gets a result. *)
Lemma analyze_parse_success (text : string) (doc : value) :
  parse text = inr doc ->
  analyze cfg parse text =
    inr (assemble (extract cfg doc) (evaluate cfg doc (extract cfg doc))).
Proof. intros H. unfold analyze. now rewrite H. Qed.

End Loader.

Section Scenarios.

Import Samples.
Local Open Scope string_scope.

Example scenario_B_metrics :
  extract example_config scenario_B = mkMetrics 1 [("stage_0", 1)] 3 false false false.
Proof. reflexivity. Qed.

Example scenario_C_metrics :
  jobs_per_stage (extract example_config scenario_C) = [("Build", 1); ("Deploy", 12)] /\
  evaluate example_config scenario_C (extract example_config scenario_C) =
    [msg_split_stage example_config "Deploy"].
Proof. split; reflexivity. Qed.

Example scenario_D_recommendations :
  evaluate example_config scenario_D (extract example_config scenario_D) =
    [msg_looks_good].
Proof. reflexivity. Qed.

Example empty_document_recommendations :
  evaluate example_config Null (extract example_config Null) =
    [msg_no_stages example_config; msg_no_trigger example_config].
Proof. reflexivity. Qed.

(** Stages that share a name keep an entry each. *)
Example duplicate_names_metrics :
  extract example_config duplicate_names =
    mkMetrics 2 [("Build", 1); ("Build", 2)] 0 false false false.
Proof. reflexivity. Qed.

(** The large stage is reported although a later stage reuses its name. *)
Example repeated_name_large_recommendations :
  evaluate example_config repeated_name_large
           (extract example_config repeated_name_large) =
    [msg_split_stage example_config "Build"].
Proof. reflexivity. Qed.

Example unnamed_stages_keys :
  om_keys (jobs_per_stage (extract example_config unnamed_stages)) =
    ["stage_0"; "stage_1"; "stage_2"; "stage_3"; "stage_4"; "stage_5";
     "stage_6"; "stage_7"; "stage_8"; "stage_9"; "stage_10"].
Proof. reflexivity. Qed.

(** Unguarded probes do raise on this document; the extractor does not. *)
Example malformed_keys_probes :
  (x <- subscript malformed_keys "stages" ;; elements x) = inl TypeError /\
  subscript malformed_keys "trigger" = inl KeyError /\
  subscript Null "stages" = inl TypeError /\
  extract_dyn example_config malformed_keys =
    inr (mkMetrics 0 [] 0 false false false).
Proof. repeat split. Qed.

End Scenarios.

Section AnalyzerClaims.

Import Samples.
Local Open Scope string_scope.









(** C7. When the top-level [trigger] key is absent, the recommendations
    produced by [evaluate] include the warning that recommends an
    explicit trigger block, whatever the metrics. *)
Theorem evaluate_warns_missing_trigger (cfg : config) (doc : value) (m : metrics) :
  get "trigger" doc = None ->
  In (msg_no_trigger cfg) (evaluate cfg doc m) /\
  In (msg_no_trigger cfg) (evaluate cfg doc (extract cfg doc)) /\
  has_trigger (extract cfg doc) = false.
Proof.
  intros Ht.
  assert (Hw : forall m', In (msg_no_trigger cfg) (evaluate cfg doc m')).
  { intros m'.
    assert (Hin : In (msg_no_trigger cfg) (warnings cfg doc m')).
    { rewrite warnings_unfold. repeat (apply in_or_app; right).
      unfold fire, rule_no_trigger, has_key. rewrite Ht. now left. }
    destruct (evaluate_cases cfg doc m') as [[W _] | [_ E]].
    - rewrite W in Hin. contradiction.
    - now rewrite E. }
  repeat split; try apply Hw.
  unfold extract, has_key; simpl. now rewrite Ht.
Qed.

Lemma evaluate_warns_missing_trigger_witness :
  get "trigger" scenario_B = None /\
  In (msg_no_trigger example_config)
     (evaluate example_config scenario_B (extract example_config scenario_B)).
Proof.
  split; [reflexivity |].
  apply (evaluate_warns_missing_trigger example_config scenario_B
           (extract example_config scenario_B)).
  reflexivity.
Defined.


End AnalyzerClaims.

(* ===================================================================== *)
(** * Properties of the React components *)
(* ===================================================================== *)

Import Frontend.

Section JsStrings.

Lemma jsstring_eqb_eq (a : jsstring) : forall b,
  jsstring_eqb a b = true <-> a = b.
Proof.
  induction a as [| x a IH]; intros [| y b]; simpl; split;
    try discriminate; try reflexivity.
  - intros H. apply andb_true_iff in H. destruct H as [Hx Hab].
    apply N.eqb_eq in Hx. apply IH in Hab. now subst.
  - intros H. injection H as -> ->. apply andb_true_iff. split.
    + apply N.eqb_refl.
    + now apply IH.
Qed.

Lemma jsstring_eqb_neq (a b : jsstring) :
  a <> b -> jsstring_eqb a b = false.
Proof.
  intros H. destruct (jsstring_eqb a b) eqn:E; [| reflexivity].
  apply jsstring_eqb_eq in E. contradiction.
Qed.

Lemma starts_with_prefix (searchString : jsstring) : forall s,
  starts_with searchString s = true <-> exists post, s = searchString ++ post.
Proof.
  induction searchString as [| a n IH]; intros s; simpl.
  - split; [intros _; now exists s | reflexivity].
  - destruct s as [| b s'].
    + split; [discriminate | intros [post H]; discriminate].
    + rewrite andb_true_iff, N.eqb_eq, IH. split.
      * intros [-> [post ->]]. now exists post.
      * intros [post H]. injection H as -> ->. split; [reflexivity | now exists post].
Qed.

Lemma includes_substring (searchString : jsstring) : forall s,
  includes s searchString = true <->
  exists pre post, s = pre ++ searchString ++ post.
Proof.
  induction s as [| c s' IH]; simpl; rewrite orb_true_iff, starts_with_prefix.
  - split.
    + intros [[post H] | H]; [| discriminate]. now exists [], post.
    + intros [pre [post H]]. left. destruct pre as [| p pre]; [| discriminate].
      now exists post.
  - rewrite IH. split.
    + intros [[post H] | [pre [post H]]].
      * now exists [], post.
      * exists (c :: pre), post. simpl. now rewrite H.
    + intros [pre [post H]]. destruct pre as [| p pre]; simpl in H.
      * left. now exists post.
      * right. injection H as _ H. now exists pre, post.
Qed.

Lemma trim_start_nil (s : jsstring) :
  trim_start s = [] <-> blank s = true.
Proof.
  unfold blank. induction s as [| c s' IH]; simpl.
  - tauto.
  - destruct (is_white_space c); simpl; [exact IH |].
    split; discriminate.
Qed.

Lemma trim_start_head (s : jsstring) :
  trim_start s = [] \/
  exists c rest, trim_start s = c :: rest /\ is_white_space c = false.
Proof.
  induction s as [| c s' IH]; simpl.
  - now left.
  - destruct (is_white_space c) eqn:E; [exact IH |].
    right. now exists c, s'.
Qed.

Lemma blank_rev (s : jsstring) : blank (rev s) = blank s.
Proof.
  unfold blank. destruct (forallb is_white_space s) eqn:E.
  - rewrite forallb_forall in *. intros x Hx. apply E. now apply in_rev.
  - destruct (forallb is_white_space (rev s)) eqn:E'; [| reflexivity].
    rewrite <- E. symmetry. rewrite forallb_forall in *.
    intros x Hx. apply E'. now apply in_rev in Hx.
Qed.

(** [trim] leaves nothing exactly when the string is blank. *)
Lemma trim_nil (s : jsstring) : trim s = [] <-> blank s = true.
Proof.
  unfold trim, trim_end. split.
  - intros H.
    assert (H' : trim_start (rev (trim_start s)) = []).
    { destruct (trim_start (rev (trim_start s))); [reflexivity |].
      simpl in H. now apply app_eq_nil in H. }
    apply trim_start_nil in H'. rewrite blank_rev in H'.
    destruct (trim_start_head s) as [E | [c [rest [E Hc]]]].
    + now apply trim_start_nil.
    + rewrite E in H'. unfold blank in H'. simpl in H'. now rewrite Hc in H'.
  - intros H. apply trim_start_nil in H. now rewrite H.
Qed.

End JsStrings.

Section PipelineAnalyzerClaims.

Import PipelineAnalyzer.

Lemma map_items_In (recs : list jsstring) : forall index item,
  In item (map_items index recs) ->
  exists j rec,
    nth_error recs j = Some rec /\ item = recommendationItem rec (index + j).
Proof.
  induction recs as [| rec rest IH]; intros index item Hin; simpl in Hin.
  - contradiction.
  - destruct Hin as [<- | Hin].
    + exists 0, rec. now rewrite Nat.add_0_r.
    + destruct (IH _ _ Hin) as [j [rec' [Hn ->]]].
      exists (S j), rec'. split; [exact Hn |]. f_equal. lia.
Qed.

(** C8. Every rendered recommendation shows its own text, and its icon
    is decided by that text alone: the success icon if and only if the
    text contains ["looks good"], the warning icon otherwise. *)
Theorem recommendation_icon_by_text (data : response_data) (item : list_item) :
  In item (renderRecommendations data) ->
  (exists recs, data_recommendations data = Some recs /\
                nth_error recs (item_key item) = Some (item_primary item)) /\
  (item_icon item = CheckCircleIcon_success <->
   exists pre post, item_primary item = pre ++ str "looks good" ++ post) /\
  (item_icon item = WarningIcon_warning <->
   ~ exists pre post, item_primary item = pre ++ str "looks good" ++ post).
Proof.
  unfold renderRecommendations.
  destruct (data_recommendations data) as [recs |]; [| contradiction].
  intros Hin. apply map_items_In in Hin. destruct Hin as [j [rec [Hn ->]]].
  split; [exists recs; now split |].
  rewrite <- includes_substring. unfold recommendationItem. simpl item_icon.
  simpl item_primary.
  destruct (includes rec (str "looks good")); split; split;
    try congruence; try discriminate; intros H; try reflexivity;
    exfalso; apply H; reflexivity.
Qed.

Lemma recommendation_icon_by_text_witness :
  let rec := str "Pipeline configuration looks good" in
  let item := recommendationItem rec 0 in
  In item (renderRecommendations (mkData None (Some [rec]))) /\
  item_icon item = CheckCircleIcon_success /\
  exists pre post, item_primary item = pre ++ str "looks good" ++ post.
Proof.
  intros rec item.
  assert (Hin : In item (renderRecommendations (mkData None (Some [rec])))).
  { simpl. now left. }
  split; [exact Hin |]. split; [reflexivity |].
  destruct (recommendation_icon_by_text (mkData None (Some [rec])) item Hin)
    as [_ [H _]].
  apply H. reflexivity.
Defined.

(** C10. On empty or white-space-only content, [handleAnalyze] only sets
    the error message: it sends no request and leaves the analysis (and
    the other cells) as they were; the Analyze button is disabled for
    such content. *)
Theorem handleAnalyze_blank_input (net : request -> outcome) (st : state) :
  blank (yamlContent st) = true ->
  handleAnalyze net st =
    (setError (str "Please enter YAML content to analyze") st, []) /\
  snd (handleAnalyze net st) = [] /\
  error (fst (handleAnalyze net st)) = str "Please enter YAML content to analyze" /\
  analysis (fst (handleAnalyze net st)) = analysis st /\
  loading (fst (handleAnalyze net st)) = loading st /\
  yamlContent (fst (handleAnalyze net st)) = yamlContent st /\
  analyzeDisabled st = true.
Proof.
  intros Hb. apply trim_nil in Hb.
  assert (E : handleAnalyze net st =
              (setError (str "Please enter YAML content to analyze") st, [])).
  { unfold handleAnalyze. now rewrite Hb. }
  rewrite E. repeat split.
  unfold analyzeDisabled. rewrite Hb. apply orb_true_r.
Qed.

Lemma handleAnalyze_blank_input_witness :
  let st := mkState (str "  ") None false [] in
  blank (yamlContent st) = true /\
  handleAnalyze (fun _ => Rejected None) st =
    (setError (str "Please enter YAML content to analyze") st, []).
Proof.
  intros st. split; [reflexivity |].
  apply (handleAnalyze_blank_input (fun _ => Rejected None) st).
  reflexivity.
Defined.

(** The match is case sensitive, and the engine's positive message
    is shown with the success icon. *)
Example recommendation_icon_samples :
  item_icon (recommendationItem (str "Looks Good") 0) = WarningIcon_warning /\
  item_icon (recommendationItem (str Analyzer.msg_looks_good) 0) =
    CheckCircleIcon_success.
Proof. split; reflexivity. Qed.

(** Conversely, content that is not blank is posted, once and as it is. *)
Lemma handleAnalyze_sends (net : request -> outcome) (st : state) :
  blank (yamlContent st) = false ->
  snd (handleAnalyze net st) =
    [mkRequest (str "/api/pipelines/analyze") (yamlContent st)] /\
  loading (fst (handleAnalyze net st)) = false.
Proof.
  intros Hb. unfold handleAnalyze.
  destruct (trim (yamlContent st)) eqn:E.
  - apply trim_nil in E. congruence.
  - simpl. now split.
Qed.

(** A rejected request leaves a message to show, never an empty one. *)
Lemma handleAnalyze_rejected (net : request -> outcome) (st : state)
  (e : option jsstring) :
  blank (yamlContent st) = false ->
  net (mkRequest (str "/api/pipelines/analyze") (yamlContent st)) = Rejected e ->
  error (fst (handleAnalyze net st)) = or_else e (str "Failed to analyze pipeline") /\
  truthy_string (error (fst (handleAnalyze net st))) = true /\
  analysis (fst (handleAnalyze net st)) = analysis st.
Proof.
  intros Hb Hn. unfold handleAnalyze.
  destruct (trim (yamlContent st)) eqn:E.
  - apply trim_nil in E. congruence.
  - simpl. rewrite Hn. simpl. repeat split.
    destruct e as [s |]; simpl; [| reflexivity].
    destruct s; reflexivity.
Qed.

End PipelineAnalyzerClaims.

Section PipelineListClaims.

Import PipelineList.

(** [statusMap[status]], case by case. *)
Lemma statusMap_lookup (status : jsstring) :
  get_property statusMap status =
  if jsstring_eqb status (str "succeeded") then entry "Succeeded" "success"
  else if jsstring_eqb status (str "failed") then entry "Failed" "error"
  else if jsstring_eqb status (str "running") then entry "Running" "info"
  else if jsstring_eqb status (str "default") then entry "Unknown" "default"
  else if inherited status then JBuiltin status else JUndefined.
Proof.
  unfold statusMap, get_property. cbn [own_property].
  destruct (jsstring_eqb status (str "succeeded")); [reflexivity |].
  destruct (jsstring_eqb status (str "failed")); [reflexivity |].
  destruct (jsstring_eqb status (str "running")); [reflexivity |].
  destruct (jsstring_eqb status (str "default")); reflexivity.
Qed.

(** [getStatusChip] never throws: the fallback entry always exists. *)
Lemma getStatusChip_total (status : jsstring) :
  exists c, getStatusChip status = inr c.
Proof.
  unfold getStatusChip, js_or. rewrite statusMap_lookup.
  destruct (jsstring_eqb status (str "succeeded")); [eexists; reflexivity |].
  destruct (jsstring_eqb status (str "failed")); [eexists; reflexivity |].
  destruct (jsstring_eqb status (str "running")); [eexists; reflexivity |].
  destruct (jsstring_eqb status (str "default")); [eexists; reflexivity |].
  destruct (inherited status); eexists; reflexivity.
Qed.

(** The three statuses with an entry of their own. *)
Lemma getStatusChip_known :
  getStatusChip (str "succeeded") =
    inr (mkChip (JString (str "Succeeded")) (JString (str "success")) (str "small")) /\
  getStatusChip (str "failed") =
    inr (mkChip (JString (str "Failed")) (JString (str "error")) (str "small")) /\
  getStatusChip (str "running") =
    inr (mkChip (JString (str "Running")) (JString (str "info")) (str "small")).
Proof. repeat split. Qed.

(** A status that names no property of [statusMap], own or inherited,
    gets the default entry; so does the spec's fourth status, "unknown". *)
Lemma getStatusChip_fallback (status : jsstring) :
  status <> str "succeeded" -> status <> str "failed" ->
  status <> str "running" -> inherited status = false ->
  getStatusChip status = inr unknown_chip.
Proof.
  intros H1 H2 H3 Hi.
  unfold getStatusChip, js_or. rewrite statusMap_lookup.
  rewrite (jsstring_eqb_neq _ _ H1), (jsstring_eqb_neq _ _ H2),
    (jsstring_eqb_neq _ _ H3), Hi.
  destruct (jsstring_eqb status (str "default")); reflexivity.
Qed.

Lemma getStatusChip_unknown :
  getStatusChip (str "unknown") = inr unknown_chip.
Proof. reflexivity. Qed.




End PipelineListClaims.

(* ===================================================================== *)
(** * Further properties of PipelineAnalyzer.js *)
(* ===================================================================== *)

Section PipelineAnalyzerHandlers.

Import PipelineAnalyzer.

Lemma handleYamlChange_state (v : jsstring) (st : state) :
  handleYamlChange v st = mkState v None (loading st) [].
Proof.
  destruct st as [y a l e]. unfold handleYamlChange. simpl.
  destruct a, e; reflexivity.
Qed.

(** X1. Whatever the state, an edit of the text field stores the new
    text and leaves neither results nor an error behind; [loading] is not
    touched. *)
Theorem handleYamlChange_clears (v : jsstring) (st : state) :
  handleYamlChange v st = mkState v None (loading st) [] /\
  errorAlert (handleYamlChange v st) = None /\
  resultsPanel (handleYamlChange v st) = None.
Proof.
  rewrite handleYamlChange_state. repeat split.
Qed.

(** The handler run to completion is its first part followed by the
    second part on the answer of the network. *)
Lemma handleAnalyze_two_parts (net : request -> outcome) (st : state) :
  handleAnalyze net st =
  match handleAnalyze_begin st with
  | (st1, req :: _) => (handleAnalyze_settle (net req) st1, [req])
  | (st1, []) => (st1, [])
  end.
Proof.
  unfold handleAnalyze, handleAnalyze_begin, handleAnalyze_settle.
  destruct (negb (truthy_string (trim (yamlContent st)))); reflexivity.
Qed.

Lemma blank_false_trim (s : jsstring) :
  blank s = false <-> truthy_string (trim s) = true.
Proof.
  destruct (trim s) eqn:E; simpl.
  - apply trim_nil in E. split; congruence.
  - split; [reflexivity | intros _].
    destruct (blank s) eqn:B; [| reflexivity].
    apply trim_nil in B. congruence.
Qed.

Lemma blank_false_witness (s : jsstring) (c : code_unit) :
  In c s -> is_white_space c = false -> blank s = false.
Proof.
  intros Hin Hc. unfold blank. destruct (forallb is_white_space s) eqn:E.
  - rewrite forallb_forall in E. rewrite (E c Hin) in Hc. discriminate.
  - reflexivity.
Qed.

(** X2. Content with at least one character that is not white space is
    posted: exactly one request, to the analyze endpoint, carrying the
    content as typed (not trimmed); when the handler is done, [loading]
    is false and the content is still in the text field. *)
Theorem handleAnalyze_posts_content
  (net : request -> outcome) (st : state) (c : code_unit) :
  In c (yamlContent st) -> is_white_space c = false ->
  snd (handleAnalyze net st) =
    [mkRequest (str "/api/pipelines/analyze") (yamlContent st)] /\
  loading (fst (handleAnalyze net st)) = false /\
  yamlContent (fst (handleAnalyze net st)) = yamlContent st.
Proof.
  intros Hin Hc.
  pose proof (blank_false_witness _ _ Hin Hc) as Hb.
  apply blank_false_trim in Hb.
  unfold handleAnalyze. rewrite Hb. simpl.
  destruct (net _); repeat split.
Qed.

Lemma handleAnalyze_posts_content_witness :
  let st := mkState (str "  steps: []  ") None false [] in
  snd (handleAnalyze (fun _ => Rejected None) st) =
    [mkRequest (str "/api/pipelines/analyze") (str "  steps: []  ")].
Proof.
  intros st.
  apply (handleAnalyze_posts_content (fun _ => Rejected None) st 115%N).
  - simpl. tauto.
  - reflexivity.
Defined.

(** X3. When the request for non-blank content is answered, the answer
    becomes the analysis, the error is empty and [loading] is false. *)
Theorem handleAnalyze_resolved
  (net : request -> outcome) (st : state) (data : response_data) :
  blank (yamlContent st) = false ->
  net (mkRequest (str "/api/pipelines/analyze") (yamlContent st)) = Resolved data ->
  fst (handleAnalyze net st) = mkState (yamlContent st) (Some data) false [] /\
  errorAlert (fst (handleAnalyze net st)) = None /\
  resultsPanel (fst (handleAnalyze net st)) = Some data.
Proof.
  intros Hb Hn. apply blank_false_trim in Hb.
  unfold handleAnalyze. rewrite Hb, Hn. simpl. repeat split.
Qed.

Lemma handleAnalyze_resolved_witness :
  let st := mkState (str "steps: []") None false (str "old error") in
  let data := mkData None (Some [str "Pipeline configuration looks good"]) in
  fst (handleAnalyze (fun _ => Resolved data) st) =
    mkState (str "steps: []") (Some data) false [].
Proof.
  intros st data.
  apply (handleAnalyze_resolved (fun _ => Resolved data) st data); reflexivity.
Defined.

(** X4. When the request for non-blank content fails, the error shown is
    the server's message if there is a non-empty one and "Failed to
    analyze pipeline" otherwise, so it is never empty; the analysis of an
    earlier run stays as it was and [loading] is false. *)
Theorem handleAnalyze_failure
  (net : request -> outcome) (st : state) (e : option jsstring) :
  blank (yamlContent st) = false ->
  net (mkRequest (str "/api/pipelines/analyze") (yamlContent st)) = Rejected e ->
  fst (handleAnalyze net st) =
    mkState (yamlContent st) (analysis st) false
            (match e with
             | Some (c :: message) => c :: message
             | _ => str "Failed to analyze pipeline"
             end) /\
  errorAlert (fst (handleAnalyze net st)) <> None /\
  resultsPanel (fst (handleAnalyze net st)) = analysis st.
Proof.
  intros Hb Hn. apply blank_false_trim in Hb.
  unfold handleAnalyze. rewrite Hb, Hn. simpl.
  destruct e as [[| c message] |]; simpl; repeat split; discriminate.
Qed.

Lemma handleAnalyze_failure_witness :
  let st := mkState (str "steps: [") None false [] in
  fst (handleAnalyze (fun _ => Rejected (Some (str "Invalid YAML"))) st) =
    mkState (str "steps: [") None false (str "Invalid YAML").
Proof.
  intros st.
  apply (handleAnalyze_failure
           (fun _ => Rejected (Some (str "Invalid YAML"))) st
           (Some (str "Invalid YAML"))); reflexivity.
Defined.

End PipelineAnalyzerHandlers.

Section PipelineAnalyzerSessions.

Import PipelineAnalyzer.

Lemma initial_session_invariant : invariant initial_session.
Proof.
  unfold invariant, initial_session. simpl. repeat split; try discriminate.
  - lia.
  - intros H. now contradiction H.
  - constructor.
Qed.

Lemma step_invariant (s s' : session) (e : event) :
  invariant s -> step s e = Some s' -> invariant s'.
Proof.
  intros [Hlen [Hload [Herr Hsent]]] Hstep.
  destruct e as [v | | o]; simpl in Hstep.
  - (* the text changes *)
    injection Hstep as <-.
    unfold invariant. simpl. rewrite handleYamlChange_state. simpl. repeat split; auto; apply Hload.
  - (* the button is clicked *)
    unfold analyzeDisabled in Hstep.
    destruct (loading (component s)) eqn:Hl; [discriminate |].
    destruct (truthy_string (trim (yamlContent (component s)))) eqn:Ht;
      [| discriminate].
    simpl in Hstep. unfold handleAnalyze_begin in Hstep. rewrite Ht in Hstep.
    simpl in Hstep. injection Hstep as <-.
    assert (Hnil : in_flight s = []).
    { destruct (in_flight s) as [| r rest] eqn:E; [reflexivity |].
      destruct Hload as [_ Hload].
      assert (H : false = true) by (apply Hload; discriminate).
      discriminate. }
    unfold invariant. simpl. rewrite Hnil. simpl. repeat split; try discriminate.
    + lia.
    + apply Forall_app. split; [exact Hsent |].
      constructor; [| constructor]. simpl. split; [reflexivity |].
      now apply blank_false_trim.
  - (* a request settles *)
    destruct (in_flight s) as [| r rest] eqn:E; [discriminate |].
    injection Hstep as <-.
    assert (Hrest : rest = []).
    { destruct rest; [reflexivity | simpl in Hlen; lia]. }
    subst rest. unfold invariant, handleAnalyze_settle. simpl.
    repeat split; try discriminate; try lia.
    + intros H. now contradiction H.
    + exact Hsent.
Qed.

Lemma run_invariant (events : list event) : forall s s',
  invariant s -> run s events = Some s' -> invariant s'.
Proof.
  induction events as [| e rest IH]; intros s s' Hinv Hrun; simpl in Hrun.
  - now injection Hrun as <-.
  - destruct (step s e) as [s1 |] eqn:E; [| discriminate].
    eapply IH; [eapply step_invariant; eassumption | exact Hrun].
Qed.

(** X5. Through any sequence of edits, clicks on the enabled button and
    settling requests, starting from the freshly mounted component: at
    most one request is in flight, [loading] is true exactly while one
    is, no error is set while loading, and every request ever sent went
    to the analyze endpoint with content that is not blank. *)
Theorem session_one_request_in_flight (events : list event) (s : session) :
  run initial_session events = Some s ->
  List.length (in_flight s) <= 1 /\
  (loading (component s) = true <-> in_flight s <> []) /\
  (loading (component s) = true -> error (component s) = []) /\
  Forall (fun r => url r = str "/api/pipelines/analyze" /\
                   blank (yaml_content r) = false) (sent s).
Proof.
  intros Hrun.
  exact (run_invariant events initial_session s initial_session_invariant Hrun).
Qed.

Lemma session_one_request_in_flight_witness :
  exists s,
    run initial_session
        [Change (str "steps: []"); Click; Change (str "steps: [a]");
         Settle (Rejected None)] = Some s /\
    List.length (in_flight s) <= 1.
Proof.
  eexists. split; [reflexivity |].
  apply (session_one_request_in_flight
           [Change (str "steps: []"); Click; Change (str "steps: [a]");
            Settle (Rejected None)]).
  reflexivity.
Defined.

(** A second click while the first request is in flight is not taken. *)
Example click_while_loading :
  run initial_session [Change (str "steps: []"); Click; Click] = None.
Proof. reflexivity. Qed.

End PipelineAnalyzerSessions.

Section PipelineAnalyzerLists.

Import PipelineAnalyzer.

Lemma map_items_primary (recs : list jsstring) : forall index,
  map item_primary (map_items index recs) = recs.
Proof.
  induction recs as [| rec rest IH]; intros index; simpl;
    [reflexivity | now rewrite IH].
Qed.

Lemma map_items_key (recs : list jsstring) : forall index,
  map item_key (map_items index recs) = seq index (List.length recs).
Proof.
  induction recs as [| rec rest IH]; intros index; simpl;
    [reflexivity | now rewrite IH].
Qed.

(** X6. The recommendations are rendered one item each, in the order of
    the response, every text unchanged, with the keys 0, 1, 2, ...; a
    response without a [recommendations] field renders no item. *)
Theorem renderRecommendations_in_order (data : response_data) :
  map item_primary (renderRecommendations data) =
    match data_recommendations data with Some recs => recs | None => [] end /\
  map item_key (renderRecommendations data) =
    seq 0 (List.length (renderRecommendations data)) /\
  NoDup (map item_key (renderRecommendations data)).
Proof.
  unfold renderRecommendations.
  destruct (data_recommendations data) as [recs |]; simpl.
  - assert (L : List.length (map_items 0 recs) = List.length recs).
    { rewrite <- (length_map item_primary). now rewrite map_items_primary. }
    rewrite L, map_items_primary, map_items_key.
    repeat split. apply seq_NoDup.
  - repeat split. constructor.
Qed.

End PipelineAnalyzerLists.

Section ObjectEntries.

Import PipelineAnalyzer.

Variable A : Type.

Lemma insert_by_index_perm (e : jsstring * A) (l : list (jsstring * A)) :
  Permutation (insert_by_index e l) (e :: l).
Proof.
  induction l as [| e' rest IH]; simpl.
  - apply Permutation_refl.
  - destruct (N.leb (index_value (fst e)) (index_value (fst e'))).
    + apply Permutation_refl.
    + eapply Permutation_trans; [apply perm_skip, IH | apply perm_swap].
Qed.

Lemma sort_by_index_perm (l : list (jsstring * A)) :
  Permutation (sort_by_index l) l.
Proof.
  induction l as [| e rest IH]; simpl.
  - apply Permutation_refl.
  - eapply Permutation_trans; [apply insert_by_index_perm | now apply perm_skip].
Qed.

Lemma insert_by_index_sorted (e : jsstring * A) (l : list (jsstring * A)) :
  Sorted (@index_le A) l -> Sorted (@index_le A) (insert_by_index e l).
Proof.
  induction l as [| e' rest IH]; intros Hs; simpl.
  - repeat constructor.
  - destruct (N.leb (index_value (fst e)) (index_value (fst e'))) eqn:E.
    + constructor; [exact Hs |]. constructor. now apply N.leb_le.
    + apply N.leb_gt in E. inversion Hs as [| x l' Hs' Hhd]; subst.
      constructor; [now apply IH |].
      destruct rest as [| e'' rest']; simpl.
      * constructor. unfold index_le. lia.
      * destruct (N.leb (index_value (fst e)) (index_value (fst e''))).
        -- constructor. unfold index_le. lia.
        -- inversion Hhd; subst. now constructor.
Qed.

Lemma sort_by_index_sorted (l : list (jsstring * A)) :
  Sorted (@index_le A) (sort_by_index l).
Proof.
  induction l as [| e rest IH]; simpl.
  - constructor.
  - now apply insert_by_index_sorted.
Qed.

Lemma filter_split_perm (f : jsstring * A -> bool) (l : list (jsstring * A)) :
  Permutation (filter f l ++ filter (fun e => negb (f e)) l) l.
Proof.
  induction l as [| e rest IH]; simpl.
  - apply Permutation_refl.
  - destruct (f e); simpl.
    + now apply perm_skip.
    + apply Permutation_sym. apply Permutation_cons_app. now apply Permutation_sym.
Qed.

Lemma object_entries_perm (props : list (jsstring * A)) :
  Permutation (object_entries props) props.
Proof.
  unfold object_entries.
  eapply Permutation_trans; [| apply (filter_split_perm (@indexed A))].
  apply Permutation_app_tail. apply sort_by_index_perm.
Qed.

Lemma object_entries_no_index (props : list (jsstring * A)) :
  forallb (fun e => negb (is_array_index (fst e))) props = true ->
  object_entries props = props.
Proof.
  intros H. unfold object_entries.
  assert (E1 : filter (@indexed A) props = []).
  { induction props as [| e rest IH]; simpl in *; [reflexivity |].
    apply andb_true_iff in H. destruct H as [He Hr].
    unfold indexed at 1. apply negb_true_iff in He. rewrite He. now apply IH. }
  assert (E2 : filter (fun e => negb (indexed e)) props = props).
  { induction props as [| e rest IH]; simpl in *; [reflexivity |].
    apply andb_true_iff in H. destruct H as [He Hr].
    unfold indexed at 1. rewrite He. f_equal. apply IH; [exact Hr |].
    simpl in E1. unfold indexed at 1 in E1. apply negb_true_iff in He.
    now rewrite He in E1. }
  now rewrite E1, E2.
Qed.

Lemma object_entries_index_first (props : list (jsstring * A)) :
  exists idx,
    object_entries props = idx ++ filter (fun e => negb (indexed e)) props /\
    Forall (fun e => is_array_index (fst e) = true) idx /\
    Sorted (@index_le A) idx.
Proof.
  exists (sort_by_index (filter (@indexed A) props)). split; [reflexivity |].
  split; [| apply sort_by_index_sorted].
  apply Forall_forall. intros e He.
  apply (Permutation_in _ (sort_by_index_perm _)) in He.
  apply filter_In in He. exact (proj2 He).
Qed.

End ObjectEntries.

Section PipelineAnalyzerJobs.

Import PipelineAnalyzer.

(** X7. The jobs list shows exactly one item per property of
    [jobs_per_stage]: the items are a rearrangement of the properties.
    Keys that are array indices ("0", "7", "12", ...) come first, in
    ascending numeric order, followed by all other keys in the order of
    the object; so when no stage key is an array index the items appear
    in the order of the object. *)
Theorem renderJobs_entries
  (data : response_data) (a : metrics_view) (props : list (jsstring * nat)) :
  data_analysis data = Some a -> jobs_per_stage a = Some props ->
  Permutation (renderJobs data) (map jobItem props) /\
  (forallb (fun e => negb (is_array_index (fst e))) props = true ->
   renderJobs data = map jobItem props) /\
  exists idx,
    renderJobs data =
      map jobItem (idx ++ filter (fun e => negb (is_array_index (fst e))) props) /\
    Forall (fun e => is_array_index (fst e) = true) idx /\
    Sorted (fun e1 e2 => (index_value (fst e1) <= index_value (fst e2))%N) idx.
Proof.
  intros Ha Hp. unfold renderJobs. rewrite Ha, Hp.
  split; [| split].
  - apply Permutation_map. apply object_entries_perm.
  - intros H. now rewrite object_entries_no_index.
  - destruct (object_entries_index_first nat props) as [idx [E [Hi Hs]]].
    exists idx. rewrite E. repeat split; assumption.
Qed.

Lemma renderJobs_entries_witness :
  let props := [(str "Build", 1); (str "Deploy", 12)] in
  let data := mkData (Some (mkMetricsView (Some 2) (Some props))) None in
  Permutation (renderJobs data) (map jobItem props).
Proof.
  intros props data.
  apply (renderJobs_entries data (mkMetricsView (Some 2) (Some props)) props);
    reflexivity.
Defined.

(** A stage named "2" declared before a stage named "1" is listed
    after it, ahead of the stages with other names. *)
Example renderJobs_numeric_names :
  map job_key
      (renderJobs
         (mkData (Some (mkMetricsView (Some 3)
                          (Some [(str "Build", 1); (str "2", 5); (str "1", 7)])))
                 None)) =
  [str "1"; str "2"; str "Build"].
Proof. reflexivity. Qed.

End PipelineAnalyzerJobs.

(* ===================================================================== *)
(** * Further properties of PipelineList.js *)
(* ===================================================================== *)

Section PipelineListChips.

Import PipelineList.

(** X8. [getStatusChip] never throws and always yields a small chip.
    The label and the colour of the chip are undefined exactly when the
    status is the name of a property inherited from [Object.prototype];
    for every other status the chip is one of the four of [statusMap]. *)
Theorem getStatusChip_cases (status : jsstring) :
  exists c,
    getStatusChip status = inr c /\
    chip_size c = str "small" /\
    (inherited status = true <-> chip_label c = JUndefined) /\
    (inherited status = true <-> chip_color c = JUndefined) /\
    (inherited status = false ->
     c = mkChip (JString (str "Succeeded")) (JString (str "success")) (str "small") \/
     c = mkChip (JString (str "Failed")) (JString (str "error")) (str "small") \/
     c = mkChip (JString (str "Running")) (JString (str "info")) (str "small") \/
     c = unknown_chip).
Proof.
  unfold getStatusChip, js_or. rewrite statusMap_lookup.
  destruct (jsstring_eqb status (str "succeeded")) eqn:E1.
  { apply jsstring_eqb_eq in E1. subst status. eexists. split; [reflexivity |].
    vm_compute. repeat split; try discriminate; auto. }
  destruct (jsstring_eqb status (str "failed")) eqn:E2.
  { apply jsstring_eqb_eq in E2. subst status. eexists. split; [reflexivity |].
    vm_compute. repeat split; try discriminate; auto. }
  destruct (jsstring_eqb status (str "running")) eqn:E3.
  { apply jsstring_eqb_eq in E3. subst status. eexists. split; [reflexivity |].
    vm_compute. repeat split; try discriminate; auto. }
  destruct (jsstring_eqb status (str "default")) eqn:E4.
  { apply jsstring_eqb_eq in E4. subst status. eexists. split; [reflexivity |].
    vm_compute. repeat split; try discriminate; auto 6. }
  destruct (inherited status) eqn:Hi.
  - eexists. split; [reflexivity |]. simpl.
    repeat split; try reflexivity; discriminate.
  - eexists. split; [reflexivity |]. simpl.
    repeat split; try discriminate. intros _. do 3 right. reflexivity.
Qed.

(** X9. A status other than "succeeded", "failed" and "running" that is
    not the name of an inherited property gets the default chip, labelled
    "Unknown" with colour "default". *)
Theorem getStatusChip_unlisted_status (status : jsstring) :
  status <> str "succeeded" -> status <> str "failed" ->
  status <> str "running" -> inherited status = false ->
  getStatusChip status = inr unknown_chip.
Proof. apply getStatusChip_fallback. Qed.

Lemma getStatusChip_unlisted_status_witness :
  getStatusChip (str "cancelled") = inr unknown_chip.
Proof.
  apply (getStatusChip_unlisted_status (str "cancelled"));
    try discriminate; reflexivity.
Defined.

End PipelineListChips.

Section PipelineListSessions.

Import PipelineList.

Lemma list_step_invariant (s s' : session) (e : event) :
  invariant (component s) -> step s e = Some s' -> invariant (component s').
Proof.
  intros [He [Hp Hl]] Hstep.
  assert (Hfetch : invariant (component (fetchPipelines s))).
  { unfold invariant, fetchPipelines. simpl.
    repeat split; [exact Hp | discriminate]. }
  destruct e; simpl in Hstep.
  - now injection Hstep as <-.
  - destruct (refreshDisabled (component s)); [discriminate |].
    now injection Hstep as <-.
  - destruct (timers s) as [| n]; [discriminate |].
    injection Hstep as <-. unfold invariant, timer_callback. simpl.
    repeat split; [exact He | now right].
Qed.

Lemma list_run_invariant (events : list event) : forall s s',
  invariant (component s) -> run s events = Some s' -> invariant (component s').
Proof.
  induction events as [| e rest IH]; intros s s' Hinv Hrun; simpl in Hrun.
  - now injection Hrun as <-.
  - destruct (step s e) as [s1 |] eqn:E; [| discriminate].
    eapply IH; [eapply list_step_invariant; eassumption | exact Hrun].
Qed.

(** X10. Through any sequence of mounts, refresh clicks and firing
    timers, the error stays empty and the pipelines are the three mock
    records as soon as [loading] is false: the component shows either the
    spinner or the list of the three records, never the error text and
    never "No pipelines found". *)
Theorem pipeline_list_never_fails
  (formatDate : jsstring -> jsstring) (events : list event) (s : session) :
  run initial_session events = Some s ->
  error (component s) = [] /\
  (loading (component s) = false -> pipelines (component s) = mock_pipelines) /\
  (render formatDate (component s) = Spinner \/
   render formatDate (component s) =
     PipelineItems (map_pipelines formatDate 3 0 mock_pipelines)).
Proof.
  intros Hrun.
  assert (Hinit : invariant (component initial_session)).
  { unfold invariant. simpl. repeat split; [now left | discriminate]. }
  destruct (list_run_invariant events initial_session s Hinit Hrun) as [He [Hp Hl]].
  repeat split; [exact He | exact Hl |].
  unfold render. destruct (loading (component s)); [now left |].
  right. rewrite He, (Hl eq_refl). reflexivity.
Qed.

Lemma pipeline_list_never_fails_witness :
  exists s,
    run initial_session [Mount; TimerFires; ClickRefresh] = Some s /\
    error (component s) = [].
Proof.
  eexists. split; [reflexivity |].
  apply (pipeline_list_never_fails (fun d => d) [Mount; TimerFires; ClickRefresh]).
  reflexivity.
Defined.

Lemma run_timers (events : list event) : forall s s',
  ~ In Mount events ->
  timers s = (if loading (component s) then 1 else 0) ->
  run s events = Some s' ->
  timers s' = (if loading (component s') then 1 else 0).
Proof.
  induction events as [| e rest IH]; intros s s' Hm Ht Hrun; simpl in Hrun.
  - now injection Hrun as <-.
  - destruct (step s e) as [s1 |] eqn:E; [| discriminate].
    apply (IH s1 s'); [intros H; apply Hm; now right | | exact Hrun].
    destruct e; simpl in E.
    + exfalso. apply Hm. now left.
    + unfold refreshDisabled in E.
      destruct (loading (component s)) eqn:Hl; [discriminate |].
      injection E as <-. unfold handleRefresh, fetchPipelines. simpl.
      now rewrite Ht.
    + destruct (timers s) as [| n] eqn:Hn; [discriminate |].
      injection E as <-. simpl.
      destruct (loading (component s)); [| discriminate].
      now injection Ht as ->.
Qed.

(** X11. Once mounted, the component has at most one timer pending
    however the refresh button is used, and [loading] is true exactly
    while that timer is pending: clicks cannot pile up fetches. *)
Theorem refresh_single_timer (events : list event) (s : session) :
  ~ In Mount events ->
  run initial_session (Mount :: events) = Some s ->
  timers s = (if loading (component s) then 1 else 0) /\
  timers s <= 1 /\
  (refreshDisabled (component s) = true <-> timers s = 1).
Proof.
  intros Hm Hrun. simpl in Hrun.
  assert (Ht : timers s = (if loading (component s) then 1 else 0)).
  { apply (run_timers events (fetchPipelines initial_session) s Hm);
      [reflexivity | exact Hrun]. }
  unfold refreshDisabled. rewrite Ht.
  destruct (loading (component s)); repeat split; auto; discriminate.
Qed.

Lemma refresh_single_timer_witness :
  exists s,
    run initial_session [Mount; TimerFires; ClickRefresh] = Some s /\
    timers s <= 1.
Proof.
  eexists. split; [reflexivity |].
  apply (refresh_single_timer [TimerFires; ClickRefresh]).
  - simpl. intros [H | [H | []]]; discriminate.
  - reflexivity.
Defined.

End PipelineListSessions.

Section PipelineListRender.

Import PipelineList.

Variable formatDate : jsstring -> jsstring.

Lemma map_pipelines_last (len : Z) (ps : list pipeline) : forall index p,
  len = (index + Z.of_nat (List.length ps) + 1)%Z ->
  map_pipelines formatDate len index (ps ++ [p]) =
  flat_map (fun q => [pipelineItem formatDate q; DividerItem]) ps
  ++ [pipelineItem formatDate p].
Proof.
  induction ps as [| q rest IH]; intros index p Hlen; simpl.
  - assert (E : (index <? len - 1)%Z = false) by (apply Z.ltb_ge; simpl in Hlen; lia).
    now rewrite E.
  - assert (E : (index <? len - 1)%Z = true).
    { apply Z.ltb_lt. simpl List.length in Hlen. lia. }
    rewrite E. simpl. do 2 f_equal. apply IH.
    simpl List.length in Hlen. lia.
Qed.

(** X12. A loaded, error-free, non-empty list is rendered as its items
    in order, each but the last followed by one divider; there is no
    divider after the last item.  With no pipeline at all, "No pipelines
    found" is shown instead. *)
Theorem render_dividers_between_items (st : state) (ps : list pipeline) (p : pipeline) :
  loading st = false -> error st = [] ->
  (pipelines st = ps ++ [p] ->
   render formatDate st =
     PipelineItems
       (flat_map (fun q => [pipelineItem formatDate q; DividerItem]) ps
        ++ [pipelineItem formatDate p])) /\
  (pipelines st = [] -> render formatDate st = NoPipelinesFound).
Proof.
  intros Hl He. unfold render. rewrite Hl, He. simpl. split.
  - intros Hp. rewrite Hp.
    assert (Hn : Nat.eqb (List.length (ps ++ [p])) 0 = false).
    { apply Nat.eqb_neq. rewrite length_app. simpl. lia. }
    rewrite Hn. f_equal. apply map_pipelines_last.
    rewrite length_app. simpl. lia.
  - intros Hp. now rewrite Hp.
Qed.

End PipelineListRender.

Lemma render_dividers_between_items_witness :
  let a := PipelineList.mkPipeline (str "1") (str "A") (str "running") (str "d1") in
  let b := PipelineList.mkPipeline (str "2") (str "B") (str "failed") (str "d2") in
  PipelineList.render (fun d => d) (PipelineList.mkState [a; b] false []) =
  PipelineList.PipelineItems
    [PipelineList.pipelineItem (fun d => d) a; PipelineList.DividerItem;
     PipelineList.pipelineItem (fun d => d) b].
Proof.
  intros a b.
  apply (render_dividers_between_items (fun d => d)
           (PipelineList.mkState [a; b] false []) [a] b); reflexivity.
Defined.

(* ===================================================================== *)
(** * Properties of App.js *)
(* ===================================================================== *)

Section AppTabs.

Import App.

(** X13. Leaving the Analyze tab drops the analyzer, and coming back
    shows it in its initial state: whatever was typed or analysed before
    is gone.  Likewise every visit to the list tab from another tab
    starts a new fetch and shows the spinner. *)
Theorem tab_round_trip_resets
  (formatDate : jsstring -> jsstring) (st : state) (v : nat) :
  (v <> 0 ->
   analyzer (handleTabChange v st) = None /\
   analyzer (handleTabChange 0 (handleTabChange v st)) =
     Some PipelineAnalyzer.initial_state) /\
  (v <> 1 ->
   pipelineList (handleTabChange v st) = None /\
   exists l,
     pipelineList (handleTabChange 1 (handleTabChange v st)) = Some l /\
     l = PipelineList.fetchPipelines PipelineList.initial_session /\
     PipelineList.render formatDate (PipelineList.component l) = PipelineList.Spinner).
Proof.
  unfold handleTabChange, reconcile, TabPanel. simpl. split; intros Hv.
  - apply Nat.eqb_neq in Hv. rewrite Hv. simpl. now split.
  - apply Nat.eqb_neq in Hv. rewrite Hv. simpl. split; [reflexivity |].
    eexists. repeat split.
Qed.

Lemma tab_round_trip_resets_witness :
  let typed :=
    PipelineAnalyzer.mkState (str "steps: []") None false [] in
  analyzer (handleTabChange 0 (handleTabChange 1 (mkState 0 (Some typed) None))) =
    Some PipelineAnalyzer.initial_state.
Proof.
  intros typed.
  destruct (tab_round_trip_resets (fun d => d) (mkState 0 (Some typed) None) 1)
    as [H _].
  apply H. discriminate.
Defined.

(** X14. After any sequence of tab changes, the analyzer is in the tree
    exactly when the value is 0 and the list exactly when it is 1, so
    never both; a panel is hidden exactly when its children are not
    rendered. *)
Theorem tabs_one_child_mounted (values : list nat) :
  let st := fold_left (fun st v => handleTabChange v st) values initial_state in
  (analyzer st <> None <-> tabValue st = 0) /\
  (pipelineList st <> None <-> tabValue st = 1) /\
  ~ (analyzer st <> None /\ pipelineList st <> None) /\
  (forall index,
     hidden (TabPanel (tabValue st) index) =
     negb (children_rendered (TabPanel (tabValue st) index))).
Proof.
  intros st.
  assert (H : forall st0 : state,
             (analyzer st0 <> None <-> tabValue st0 = 0) /\
             (pipelineList st0 <> None <-> tabValue st0 = 1) ->
             let st' := fold_left (fun st v => handleTabChange v st) values st0 in
             (analyzer st' <> None <-> tabValue st' = 0) /\
             (pipelineList st' <> None <-> tabValue st' = 1)).
  { induction values as [| v rest IH]; intros st0 H0; simpl; [exact H0 |].
    apply IH. unfold handleTabChange, reconcile, TabPanel. simpl.
    destruct v as [| [| v]]; simpl; repeat split; try discriminate;
      try (intros H; now contradiction H);
      try (destruct (analyzer st0); discriminate);
      try (destruct (pipelineList st0); discriminate). }
  destruct (H initial_state) as [Ha Hl].
  { unfold initial_state, reconcile, TabPanel. simpl.
    repeat split; try discriminate. intros H'. now contradiction H'. }
  fold st in Ha, Hl. repeat split; try apply Ha; try apply Hl.
  intros [H1 H2]. apply Ha in H1. apply Hl in H2. congruence.
Qed.

End AppTabs.
